(** * server.py: acoustic fingerprint deduplication

    A shallow embedding of [src/server.py].  Python floats (and NumPy
    [float64] scalars) are IEEE 754 binary64 numbers: they are modelled by
    Rocq's primitive [float], whose operations are specified bit for bit
    by [FloatAxioms] over [SpecFloat].  Exceptions are explicit. *)

From Stdlib Require Import String ZArith List Bool Lia.
From Stdlib Require Import Floats.
Import ListNotations.

(* 0.6 and 0.4 denote, as in Python, the nearest binary64 numbers. *)
Set Warnings "-inexact-float".

Local Open Scope string_scope.
Local Open Scope list_scope.

(** ** Python exceptions *)

Inductive exn : Type :=
| ValueError       (* shapes not aligned, operands not broadcastable *)
| JSONDecodeError  (* json.loads on a text that is not JSON *)
| LoadError        (* librosa.load on a missing or undecodable file *)
| TransactError.   (* the ledger refused the transaction *)

Inductive py (A : Type) : Type :=
| Ok (a : A)
| Raise (e : exn).
Arguments Ok {A} a.
Arguments Raise {A} e.

Definition bind {A B : Type} (c : py A) (k : A -> py B) : py B :=
  match c with
  | Ok a => k a
  | Raise e => Raise e
  end.

Declare Scope py_scope.
Delimit Scope py_scope with py.
Notation "x <- c ;; k" := (bind c (fun x => k))
  (at level 61, c at next level, right associativity) : py_scope.

(** ** Vectors and matrices of doubles *)

Definition vec : Type := list float.
(** One row per coefficient channel, one column per frame. *)
Definition matrix : Type := list vec.

Definition float_of_nat (n : nat) : float :=
  PrimFloat.of_uint63 (Uint63.of_Z (Z.of_nat n)).

(** ** NumPy, as far as [server.py] calls it

    Reductions are written as left-to-right sums; NumPy and BLAS may add
    in another order, which changes low-order bits only.  No property
    below depends on the order of a sum. *)
Module np.

Definition sum (v : vec) : float :=
  fold_left PrimFloat.add v 0%float.

Definition mean (v : vec) : float :=
  (sum v / float_of_nat (length v))%float.

(** [np.std]: the square root of the mean of the squared deviations. *)
Definition std (v : vec) : float :=
  let mu := mean v in
  PrimFloat.sqrt (mean (map (fun x => ((x - mu) * (x - mu))%float) v)).

(** [np.dot] of two 1-D arrays; shapes that are not aligned raise. *)
Fixpoint zip_mul (u v : vec) : vec :=
  match u, v with
  | x :: u', y :: v' => (x * y)%float :: zip_mul u' v'
  | _, _ => []
  end.

Definition dot (u v : vec) : py float :=
  if Nat.eqb (length u) (length v) then Ok (sum (zip_mul u v))
  else Raise ValueError.

(** [u - v] on 1-D arrays of the same length. *)
Fixpoint zip_sub (u v : vec) : vec :=
  match u, v with
  | x :: u', y :: v' => (x - y)%float :: zip_sub u' v'
  | _, _ => []
  end.

(** [np.clip x lo hi]: a NaN passes through. *)
Definition clip (x lo hi : float) : float :=
  if (x <? lo)%float then lo
  else if (hi <? x)%float then hi
  else x.

(** [m.flatten()] of a 2-D array, in C (row-major) order. *)
Definition flatten (m : matrix) : vec := concat m.

(** [u - v] with NumPy's broadcasting of 1-D arrays: equal lengths, or
    one of the two has a single element; any other pair of shapes
    raises. *)
Definition subtract (u v : vec) : py vec :=
  if Nat.eqb (length u) (length v) then Ok (zip_sub u v)
  else
    match u, v with
    | [x], _ => Ok (map (fun y => (x - y)%float) v)
    | _, [y] => Ok (map (fun x => (x - y)%float) u)
    | _, _ => Raise ValueError
    end.

(** [np.isfinite(a).all()]. *)
Definition all_finite (a : vec) : bool := forallb is_finite a.

End np.

(** ** BLAS

    [nrm2], the Euclidean norm of a vector, after the reference
    implementation: a running scale and a scaled sum of squares, so that
    the squares neither overflow nor underflow.  (Optimised builds may
    differ from it in the last bits; what is used of it below is that it
    is 0 on a vector of zeros and reads the absolute values only.) *)
Module blas.

Definition nrm2_step (st : float * float) (x : float) : float * float :=
  let '(scale, ssq) := st in
  if (x =? 0)%float then (scale, ssq)
  else
    let absxi := abs x in
    if (scale <? absxi)%float then
      (absxi, (1 + ssq * ((scale / absxi) * (scale / absxi)))%float)
    else
      (scale, (ssq + (absxi / scale) * (absxi / scale))%float).

Definition nrm2 (x : vec) : float :=
  match x with
  | [] => 0%float
  | [x1] => abs x1
  | _ =>
      let '(scale, ssq) := fold_left nrm2_step x (0%float, 1%float) in
      (scale * PrimFloat.sqrt ssq)%float
  end.

End blas.

(** ** scipy.spatial.distance

    [server.py] imports [cosine] and [euclidean] and calls them on two 1-D
    arrays.  The server is written against this interface. *)
Class SpatialDistance : Type := {
  cosine : vec -> vec -> py float;
  euclidean : vec -> vec -> py float
}.

(** The reference instance follows SciPy's definitions.
    [cosine u v = clip (1 - u.v / sqrt ((u.u) * (v.v))) 0 2], where
    [np.dot] raises on arrays of different lengths and a NaN goes through
    to the result.  [euclidean u v] is [scipy.linalg.norm (u - v)]: the
    subtraction broadcasts or raises, the norm first checks its argument
    ([asarray_chkfinite]) and raises [ValueError] when it holds a NaN or an
    infinity, and then calls BLAS [nrm2]. *)
Module scipy.

Definition cosine (u v : vec) : py float :=
  (uv <- np.dot u v ;;
   uu <- np.dot u u ;;
   vv <- np.dot v v ;;
   Ok (np.clip (1 - uv / PrimFloat.sqrt (uu * vv))%float 0%float 2%float))%py.

Definition euclidean (u v : vec) : py float :=
  (u_v <- np.subtract u v ;;
   if np.all_finite u_v then Ok (blas.nrm2 u_v) else Raise ValueError)%py.

End scipy.

#[export] Instance scipy_distance : SpatialDistance := {
  cosine := scipy.cosine;
  euclidean := scipy.euclidean
}.

(** ** The stored fingerprint text

    The [mfcc] column holds what [json.dumps] wrote for a list of floats;
    any other text makes [json.loads] raise.  Python prints a double with
    its shortest round-tripping decimal (NaN and Infinity included), so
    [json.loads (json.dumps v)] is [v]. *)
Inductive mfcc_text : Type :=
| Dumped (v : vec)
| NotJson.

Module json.
Definition dumps (v : vec) : mfcc_text := Dumped v.
Definition loads (t : mfcc_text) : py vec :=
  match t with
  | Dumped v => Ok v
  | NotJson => Raise JSONDecodeError
  end.
End json.

(** ** The world around the server *)

(** An audio file, as far as the server looks at it: what
    [librosa.load path sr=22050] followed by
    [librosa.feature.mfcc y sr n_mfcc=40] yields for its bytes: the
    coefficient matrix, or an exception for an undecodable payload. *)
Definition audio : Type := py matrix.

(** The upload folder: paths and the files stored under them. *)
Definition files : Type := list (string * audio).

Fixpoint read_file (fs : files) (path : string) : option audio :=
  match fs with
  | [] => None
  | (p, a) :: fs' => if String.eqb p path then Some a else read_file fs' path
  end.

Definition save_file (fs : files) (path : string) (a : audio) : files :=
  (path, a) :: filter (fun e => negb (String.eqb (fst e) path)) fs.

Definition remove_file (fs : files) (path : string) : files :=
  filter (fun e => negb (String.eqb (fst e) path)) fs.

(** A row of the table [audio_metadata] ([id] and [timestamp], which the
    server never reads back in the scan, are left to SQLite; the list is
    kept in rowid order, the order of an unordered SELECT). *)
Record audio_row : Type := {
  filename : string;
  mfcc : mfcc_text;
  ipfs_hash : string;
  blockchain_tx : string
}.

Definition table : Type := list audio_row.

(** ** server.py *)

Section Server.
Context `{SpatialDistance}.

Definition librosa_mfcc (fs : files) (audio_path : string) : py matrix :=
  match read_file fs audio_path with
  | Some a => a
  | None => Raise LoadError
  end.

(** Line 59: each channel minus its mean, over its standard deviation.
    NumPy divides by zero without raising.  (librosa hands out [float32]
    arrays and NumPy normalises them in that format; the arithmetic is
    written here in binary64.  A division by zero gives NaN or an infinity
    in either format, but the two formats can round a mean differently
    and so disagree on which channels meet a zero deviation.  The
    properties below take the normalised values as they come; the sample
    channels, two frames each, come out the same in both formats.) *)
Definition normalize (row : vec) : vec :=
  let mu := np.mean row in
  let sd := np.std row in
  map (fun x => ((x - mu) / sd)%float) row.

Definition get_mfcc (fs : files) (audio_path : string) : option mfcc_text :=
  match librosa_mfcc fs audio_path with
  | Ok m =>
      let m' := map normalize m in
      let mfcc_flattened := np.flatten m' in
      Some (json.dumps mfcc_flattened)
  | Raise _ => None
  end.

(** [np.array(v).flatten()] leaves a 1-D array as it is.  Every exception
    raised in the body is caught and turned into the score 0. *)
Definition compute_similarity (vec1 vec2 : vec) : float :=
  match (c <- cosine vec1 vec2 ;;
         let cosine_sim := (1 - c)%float in
         euclidean_dist <- euclidean vec1 vec2 ;;
         Ok ((cosine_sim * 0.6) + ((1 / (1 + euclidean_dist)) * 0.4))%float)%py
  with
  | Ok s => s
  | Raise _ => 0%float
  end.

(** The body of the [for] loop of [check_audio_similarity]: [Some r] when
    it returns [r], [None] when it falls through to the next row (also
    through the [except] clause). *)
Definition scan_step (new_audio_mfcc : mfcc_text) (mfcc_str : mfcc_text)
  : option float :=
  match (stored_mfcc <- json.loads mfcc_str ;;
         new_audio_vec <- json.loads new_audio_mfcc ;;
         let similarity := compute_similarity new_audio_vec stored_mfcc in
         Ok (if (0.50 <=? similarity)%float
             then Some (similarity * 100)%float
             else None))%py
  with
  | Ok r => r
  | Raise _ => None
  end.

Fixpoint scan (new_audio_mfcc : mfcc_text)
              (existing_audios : list (string * mfcc_text)) : float :=
  match existing_audios with
  | [] => 0%float
  | (_, mfcc_str) :: rest =>
      match scan_step new_audio_mfcc mfcc_str with
      | Some r => r
      | None => scan new_audio_mfcc rest
      end
  end.

Definition select_filename_mfcc (db : table) : list (string * mfcc_text) :=
  map (fun r => (filename r, mfcc r)) db.

Definition check_audio_similarity (fs : files) (db : table)
                                  (audio_path : string) : float :=
  match get_mfcc fs audio_path with
  | None => 0%float
  | Some new_audio_mfcc => scan new_audio_mfcc (select_filename_mfcc db)
  end.

(** [subprocess.run ["ipfs"; "add"; "-Q"; path]]: the return code and the
    stripped standard output, or an exception when the CLI cannot run. *)
Definition upload_to_ipfs (run : py (Z * string)) : option string :=
  match run with
  | Ok (returncode, stdout) =>
      if Z.eqb returncode 0 then Some stdout else None
  | Raise _ => None
  end.

Definition delete_where_filename (db : table) (name : string) : table :=
  filter (fun r => negb (String.eqb (filename r) name)) db.

Definition store_audio_metadata (fs : files) (db : table)
    (name file_path ipfs tx_hash : string) : table :=
  match get_mfcc fs file_path with
  | None => db
  | Some mfcc_vector =>
      delete_where_filename db name
        ++ [ {| filename := name; mfcc := mfcc_vector;
                ipfs_hash := ipfs; blockchain_tx := tx_hash |} ]
  end.

(** *** The route [/upload-audio] *)

(** One POST request, with what the outside world answers while it is
    served: the uploaded file (its [secure_filename] and its payload),
    the [uuid4] drawn for it, the run of the IPFS CLI, and the outcome of
    [registerAudio(...).transact(...)] as [tx_hash.hex()]. *)
Record upload : Type := {
  file : option (string * audio);
  uuid4_hex : string;
  ipfs_run : py (Z * string);
  register_audio : py string
}.

Inductive response : Type :=
| NoFileUploaded                              (* 400 *)
| AudioTooSimilar (similarity : float)        (* 400 *)
| IpfsUploadFailed                            (* 500 *)
| BlockchainRegistrationFailed                (* 500 *)
| AudioStored (ipfs tx_hash : string).        (* 200 *)

Definition status_code (r : response) : Z :=
  match r with
  | NoFileUploaded | AudioTooSimilar _ => 400
  | IpfsUploadFailed | BlockchainRegistrationFailed => 500
  | AudioStored _ _ => 200
  end.

(** What the server keeps between requests. *)
Record state : Type := {
  uploaded_audio : files;
  audio_metadata : table
}.

Definition unique_filename (req : upload) (name : string) : string :=
  (uuid4_hex req ++ "_" ++ name)%string.

Definition file_path (unique : string) : string :=
  ("uploaded_audio/" ++ unique)%string.

Definition upload_audio (st : state) (req : upload) : response * state :=
  match file req with
  | None => (NoFileUploaded, st)
  | Some (name, payload) =>
      let unique := unique_filename req name in
      let path := file_path unique in
      let fs := save_file (uploaded_audio st) path payload in
      let db := audio_metadata st in
      let similarity := check_audio_similarity fs db path in
      if (75 <=? similarity)%float then
        (AudioTooSimilar similarity,
         {| uploaded_audio := remove_file fs path; audio_metadata := db |})
      else
        match upload_to_ipfs (ipfs_run req) with
        | None | Some EmptyString =>
            (IpfsUploadFailed,
             {| uploaded_audio := fs; audio_metadata := db |})
        | Some ipfs =>
            match register_audio req with
            | Raise _ =>
                (BlockchainRegistrationFailed,
                 {| uploaded_audio := fs; audio_metadata := db |})
            | Ok tx_hash_hex =>
                (AudioStored ipfs tx_hash_hex,
                 {| uploaded_audio := fs;
                    audio_metadata :=
                      store_audio_metadata fs db unique path ipfs
                                           tx_hash_hex |})
            end
        end
  end.

(** *** Vocabulary of the properties *)

(** The score of a stored row against the candidate, when the comparison
    yields one at all. *)
Definition score_of (cand : vec) (r : audio_row) : option float :=
  match json.loads (mfcc r) with
  | Ok stored => Some (compute_similarity cand stored)
  | Raise _ => None
  end.

(** The row reaches the match threshold 0.50. *)
Definition reaches (cand : vec) (r : audio_row) : bool :=
  match score_of cand r with
  | Some s => (0.50 <=? s)%float
  | None => false
  end.

(** The comparison of the row against the candidate fails: the stored
    text cannot be decoded, a distance raises, or the score is NaN. *)
Definition comparison_error (cand : vec) (r : audio_row) : Prop :=
  match json.loads (mfcc r) with
  | Raise _ => True
  | Ok stored =>
      (exists e, cosine cand stored = Raise e)
      \/ (exists e, euclidean cand stored = Raise e)
      \/ is_nan (compute_similarity cand stored) = true
  end.

(** A fingerprint the scorer handles without overflow: every coefficient
    is finite, and its dot product with itself lies between 2^-500 and
    2^500. *)
Definition self_dot (a : vec) : float := np.sum (np.zip_mul a a).

Definition moderate (a : vec) : bool :=
  forallb is_finite a
  && (0x1p-500 <=? self_dot a)%float
  && (self_dot a <=? 0x1p+500)%float.

(** Number of rows stored under an identifier. *)
Definition records_for (name : string) (db : table) : nat :=
  length (filter (fun r => String.eqb (filename r) name) db).

(** The UNIQUE constraint on [filename]. *)
Definition unique_filenames (db : table) : Prop :=
  forall name, (records_for name db <= 1)%nat.

(** The calls that write to the server's state. *)
Inductive call : Type :=
| CallUpload (req : upload)
| CallStore (name path ipfs tx_hash : string).

Definition step (st : state) (c : call) : state :=
  match c with
  | CallUpload req => snd (upload_audio st req)
  | CallStore name path ipfs tx_hash =>
      {| uploaded_audio := uploaded_audio st;
         audio_metadata :=
           store_audio_metadata (uploaded_audio st) (audio_metadata st)
                                name path ipfs tx_hash |}
  end.

Definition run (st : state) (calls : list call) : state :=
  fold_left step calls st.

End Server.

(** ** The blend as the specification words it

    [score = 0.6 * cos + 0.4 * (1 / (1 + d))] with
    [cos = 1 - cosineDistance] and [d = euclideanDistance]. *)
Definition spec_score (cosineDistance euclideanDistance : float) : float :=
  let cos := (1 - cosineDistance)%float in
  let d := euclideanDistance in
  (0.6 * cos + 0.4 * (1 / (1 + d)))%float.

(** ** Sample data

    Forty coefficient channels over two frames.  A channel reads [1; 3]
    or [3; 1]; after normalisation it is [-1; 1] or [1; -1].  [track k]
    has its first [k] channels turned over. *)
Module Sample.

Definition chan_up : vec := [1; 3]%float.
Definition chan_down : vec := [3; 1]%float.

Definition track (k : nat) : matrix :=
  repeat chan_down k ++ repeat chan_up (40 - k).

Definition fingerprint (k : nat) : vec :=
  np.flatten (map normalize (track k)).

Definition row (name : string) (k : nat) : audio_row :=
  {| filename := name; mfcc := json.dumps (fingerprint k);
     ipfs_hash := "QmSample"; blockchain_tx := "0xsample" |}.

(** A submitted file that decodes to [track 0], saved in the folder. *)
Definition path : string := "uploaded_audio/0f3a_song.wav".
Definition folder : files := [(path, Ok (track 0))].

(** Scores against [fingerprint 0]: 0.029 for [far], 0.62 for [near],
    1 for [same]. *)
Definition far : audio_row := row "a1_far.wav" 20.
Definition near : audio_row := row "b2_near.wav" 2.
Definition same : audio_row := row "c3_same.wav" 0.
(** A fingerprint of a longer recording, and a damaged text. *)
Definition longer : audio_row :=
  {| filename := "d4_long.wav";
     mfcc := json.dumps (fingerprint 0 ++ fingerprint 0);
     ipfs_hash := "QmSample"; blockchain_tx := "0xsample" |}.
Definition damaged : audio_row :=
  {| filename := "e5_damaged.wav"; mfcc := NotJson;
     ipfs_hash := "QmSample"; blockchain_tx := "0xsample" |}.

(** What the extractor sees of two frames of digital silence: every
    channel reads the same in both frames. *)
Definition silence : matrix :=
  [-1131.3708; -1131.3708]%float :: repeat [0; 0]%float 39.
Definition silent_folder : files := [(path, Ok silence)].

(** A submission of [track 0] that the outside world lets through. *)
Definition request : upload :=
  {| file := Some ("song.wav", Ok (track 0));
     uuid4_hex := "0f3a";
     ipfs_run := Ok (0%Z, "QmNew");
     register_audio := Ok "0xabc" |}.

Definition flagged_state : state :=
  {| uploaded_audio := []; audio_metadata := [far; near; same] |}.
Definition rejecting_state : state :=
  {| uploaded_audio := []; audio_metadata := [far; same; near] |}.

End Sample.

(** ** Further vocabulary *)

(** Some coefficient of the vector is NaN. *)
Definition has_nan (v : vec) : bool := existsb is_nan v.

(** Every channel of the matrix has [n] frames. *)
Definition frames (n : nat) (m : matrix) : Prop :=
  Forall (fun row => length row = n) m.

(** What [get_mfcc] makes of a decoded matrix. *)
Definition fingerprint_of (m : matrix) : vec :=
  np.flatten (map normalize m).

(** Every row carries the dump of a normalised, flattened matrix. *)
Definition decodable (db : table) : Prop :=
  forall r, In r db -> exists m, mfcc r = json.dumps (fingerprint_of m).

(** Every row has a content reference. *)
Definition referenced (db : table) : Prop :=
  forall r, In r db -> ipfs_hash r <> EmptyString.

(** The calls that come in through the route [/upload-audio]. *)
Definition is_upload `{SpatialDistance} (c : call) : Prop :=
  match c with
  | CallUpload _ => True
  | CallStore _ _ _ _ => False
  end.

(** * Facts about binary64 arithmetic

    Derived from the bit-level specification [SpecFloat] of the primitive
    operations. *)

Module Binary64.
Local Open Scope Z_scope.

(** ** Mantissa sizes and right shifts *)

Lemma digits2_pos_bounds (p : positive) :
  2 ^ (Zpos (digits2_pos p) - 1) <= Zpos p < 2 ^ Zpos (digits2_pos p).
Proof.
  induction p as [p IH | p IH |]; cbn [digits2_pos].
  - rewrite Pos2Z.inj_succ.
    replace (Z.succ (Zpos (digits2_pos p)) - 1) with (Z.succ (Zpos (digits2_pos p) - 1)) by lia.
    rewrite !Z.pow_succ_r by lia. lia.
  - rewrite Pos2Z.inj_succ.
    replace (Z.succ (Zpos (digits2_pos p)) - 1) with (Z.succ (Zpos (digits2_pos p) - 1)) by lia.
    rewrite !Z.pow_succ_r by lia. lia.
  - simpl. lia.
Qed.

Lemma digits2_pos_unique (p : positive) (d : Z) :
  2 ^ (d - 1) <= Zpos p < 2 ^ d -> 0 < d -> Zpos (digits2_pos p) = d.
Proof.
  intros [Hlo Hhi] Hd.
  destruct (digits2_pos_bounds p) as [Hlo' Hhi'].
  destruct (Z.lt_trichotomy (Zpos (digits2_pos p)) d) as [Hlt | [Heq | Hgt]]; [ | exact Heq | ].
  - exfalso.
    assert (2 ^ Zpos (digits2_pos p) <= 2 ^ (d - 1)) by (apply Z.pow_le_mono_r; lia).
    lia.
  - exfalso.
    assert (2 ^ d <= 2 ^ (Zpos (digits2_pos p) - 1)) by (apply Z.pow_le_mono_r; lia).
    lia.
Qed.

Lemma digits_53 (q : positive) :
  4503599627370496 <= Zpos q < 9007199254740992 ->
  Zpos (digits2_pos q) = 53.
Proof.
  intros Hq. apply digits2_pos_unique; [| lia].
  change (2 ^ (53 - 1)) with 4503599627370496.
  change (2 ^ 53) with 9007199254740992. exact Hq.
Qed.

(** A mantissa of [53 + n] digits shifted right by [n] keeps 53 digits. *)
Lemma shifted_quotient_bounds (P : positive) (d : Z) (n : positive) :
  Zpos (digits2_pos P) = d -> d - 53 = Zpos n ->
  4503599627370496 <= Zpos P / 2 ^ Zpos n < 9007199254740992.
Proof.
  intros Hd Hn.
  pose proof (digits2_pos_bounds P) as HP. rewrite Hd in HP.
  assert (Hpow : 2 ^ d = 2 ^ 53 * 2 ^ Zpos n).
  { replace d with (53 + Zpos n) by lia. apply Z.pow_add_r; lia. }
  assert (Hpow' : 2 ^ (d - 1) = 2 ^ 52 * 2 ^ Zpos n).
  { replace (d - 1) with (52 + Zpos n) by lia. apply Z.pow_add_r; lia. }
  assert (Hpos : 0 < 2 ^ Zpos n) by (apply Z.pow_pos_nonneg; lia).
  change (2 ^ 53) with 9007199254740992 in Hpow.
  change (2 ^ 52) with 4503599627370496 in Hpow'.
  split.
  - apply Z.div_le_lower_bound; [exact Hpos | lia].
  - apply Z.div_lt_upper_bound; [exact Hpos | lia].
Qed.

Lemma shr_1_m (mrs : shr_record) :
  0 <= shr_m mrs -> shr_m (shr_1 mrs) = shr_m mrs / 2.
Proof.
  destruct mrs as [m r s]; cbn [shr_m]; intros Hm.
  destruct m as [| p | p]; [reflexivity | | lia].
  destruct p as [p | p |]; cbn [shr_1 shr_m].
  - rewrite (Pos2Z.inj_xI p). apply Z.div_unique with (r := 1); lia.
  - rewrite (Pos2Z.inj_xO p). apply Z.div_unique with (r := 0); lia.
  - reflexivity.
Qed.

Lemma iter_shr_1_m (n : positive) : forall mrs : shr_record,
  0 <= shr_m mrs ->
  shr_m (iter_pos shr_1 n mrs) = shr_m mrs / 2 ^ Zpos n.
Proof.
  induction n as [n IH | n IH |]; intros mrs Hm; cbn [iter_pos].
  - assert (H1 : 0 <= shr_m (shr_1 mrs)).
    { rewrite shr_1_m by exact Hm. apply Z.div_pos; lia. }
    assert (H2 : 0 <= shr_m (iter_pos shr_1 n (shr_1 mrs))).
    { rewrite IH by exact H1. apply Z.div_pos; [exact H1 | apply Z.pow_pos_nonneg; lia]. }
    rewrite IH by exact H2. rewrite IH by exact H1. rewrite shr_1_m by exact Hm.
    rewrite !Z.div_div by (try apply Z.pow_pos_nonneg; lia).
    f_equal. rewrite (Pos2Z.inj_xI n).
    replace (2 * Zpos n + 1) with (1 + Zpos n + Zpos n) by lia.
    rewrite (Z.pow_add_r 2 (1 + Zpos n) (Zpos n)) by lia.
    rewrite (Z.pow_add_r 2 1 (Zpos n)) by lia.
    change (2 ^ 1) with 2. lia.
  - assert (H2 : 0 <= shr_m (iter_pos shr_1 n mrs)).
    { rewrite IH by exact Hm. apply Z.div_pos; [exact Hm | apply Z.pow_pos_nonneg; lia]. }
    rewrite IH by exact H2. rewrite IH by exact Hm.
    rewrite !Z.div_div by (try apply Z.pow_pos_nonneg; lia).
    f_equal. rewrite (Pos2Z.inj_xO n).
    replace (2 * Zpos n) with (Zpos n + Zpos n) by lia.
    rewrite (Z.pow_add_r 2 (Zpos n) (Zpos n)) by lia. lia.
  - rewrite shr_1_m by exact Hm. reflexivity.
Qed.

Lemma round_nearest_even_bounds (m : Z) (l : location) :
  m <= round_nearest_even m l <= m + 1.
Proof.
  destruct l as [| c]; cbn [round_nearest_even]; [lia |].
  destruct c; [destruct (Z.even m) | |]; lia.
Qed.

Lemma valid_normal (m : positive) (e : Z) :
  bounded prec emax m e = true -> -1074 < e ->
  4503599627370496 <= Zpos m < 9007199254740992 /\ e <= 971.
Proof.
  unfold bounded, canonical_mantissa, fexp, SpecFloat.emin, prec, emax.
  rewrite andb_true_iff, Z.eqb_eq, Z.leb_le. intros [Hc He] Hlo.
  assert (Hd : Zpos (digits2_pos m) = 53) by lia.
  pose proof (digits2_pos_bounds m) as Hb. rewrite Hd in Hb.
  change (2 ^ (53 - 1)) with 4503599627370496 in Hb.
  change (2 ^ 53) with 9007199254740992 in Hb.
  lia.
Qed.

(** Rounding a positive integer mantissa [P] with [d > 53] digits. *)
Lemma binary_round_aux_shift (P : positive) (E d : Z) :
  Zpos (digits2_pos P) = d -> 53 < d -> -1074 <= d + E - 53 ->
  exists (M : positive) (e'' : Z),
    binary_round_aux prec emax false (Zpos P) E loc_Exact =
      (if e'' <=? 971 then S754_finite false M e'' else S754_infinity false)
    /\ ((e'' = E + (d - 53) /\ Zpos P / 2 ^ (d - 53) <= Zpos M)
        \/ (e'' = E + (d - 53) + 1 /\ M = 4503599627370496%positive)).
Proof.
  intros Hd Hd53 Hmin.
  unfold binary_round_aux.
  unfold shr_fexp at 1. cbn [Zdigits2]. rewrite Hd.
  assert (Hn : fexp prec emax (d + E) - E = d - 53).
  { unfold fexp, SpecFloat.emin, prec, emax. lia. }
  rewrite Hn.
  destruct (d - 53) as [| n | n] eqn:En; try lia.
  cbn [shr_record_of_loc shr].
  set (mrs := iter_pos shr_1 n _).
  assert (Hq : shr_m mrs = Zpos P / 2 ^ Zpos n).
  { unfold mrs. rewrite iter_shr_1_m; cbn [shr_m]; [reflexivity | lia]. }
  assert (Hqb : 4503599627370496 <= shr_m mrs < 9007199254740992)
    by (rewrite Hq; exact (shifted_quotient_bounds P d n Hd En)).
  pose proof (round_nearest_even_bounds (shr_m mrs) (loc_of_shr_record mrs)) as Hr.
  rewrite <- Hq.
  destruct (round_nearest_even (shr_m mrs) (loc_of_shr_record mrs))
    as [| M | M]; try lia.
  destruct (Z.eq_dec (Zpos M) 9007199254740992) as [Htop | Hntop].
  - (* the increment carried into bit 54 *)
    exists 4503599627370496%positive, (E + Zpos n + 1).
    split; [| right; split; reflexivity].
    injection Htop as ->.
    unfold shr_fexp. cbn [Zdigits2 digits2_pos Pos.succ].
    replace (fexp prec emax (54 + (E + Zpos n)) - (E + Zpos n)) with 1
      by (unfold fexp, SpecFloat.emin, prec, emax; lia).
    cbn [shr shr_record_of_loc iter_pos shr_1 shr_m].
    unfold prec, emax. reflexivity.
  - exists M, (E + Zpos n).
    split; [| left; split; [reflexivity | lia]].
    assert (HdM : Zpos (digits2_pos M) = 53) by (apply digits_53; lia).
    unfold shr_fexp. cbn [Zdigits2]. rewrite HdM.
    replace (fexp prec emax (53 + (E + Zpos n)) - (E + Zpos n)) with 0
      by (unfold fexp, SpecFloat.emin, prec, emax; lia).
    cbn [shr shr_record_of_loc shr_m].
    unfold prec, emax. reflexivity.
Qed.

(** ** Rounding to nearest *)

(** [mrs] stands for [P / K]: its mantissa is the quotient, the round and
    sticky bits say where the remainder lies with respect to [K / 2]. *)
Definition shr_inv (P K : Z) (mrs : shr_record) : Prop :=
  0 < K /\ 0 <= shr_m mrs /\
  exists rho, P = shr_m mrs * K + rho /\ 0 <= rho < K
    /\ (shr_r mrs = true <-> K <= 2 * rho)
    /\ (shr_s mrs = true <-> 0 < rho /\ 2 * rho <> K).

Lemma shr_inv_init (P : Z) :
  0 <= P -> shr_inv P 1 {| shr_m := P; shr_r := false; shr_s := false |}.
Proof.
  intros HP. split; [lia |]. split; [exact HP |].
  exists 0. cbn [shr_m shr_r shr_s].
  repeat split; try lia; intros Hx; try discriminate; lia.
Qed.

Lemma shr_inv_step (P K : Z) (mrs : shr_record) :
  shr_inv P K mrs -> shr_inv P (2 * K) (shr_1 mrs).
Proof.
  intros (HK & Hm & rho & HP & Hrho & Hr & Hs).
  destruct mrs as [m r s]; cbn [shr_m shr_r shr_s] in *.
  assert (Hors : orb r s = true <-> 0 < rho).
  { rewrite orb_true_iff, Hr, Hs. lia. }
  destruct m as [| p | p]; [| | lia].
  - (* m = 0 *)
    cbn [shr_1]. split; [lia |]. split; [cbn; lia |].
    exists rho. cbn [shr_m shr_r shr_s].
    split; [lia |]. split; [lia |]. split.
    + split; [discriminate | lia].
    + rewrite Hors. lia.
  - destruct p as [p | p |]; cbn [shr_1]; (split; [lia |]);
      (split; [cbn [shr_m]; lia |]).
    + exists (K + rho). cbn [shr_m shr_r shr_s].
      split; [rewrite HP, (Pos2Z.inj_xI p); ring |].
      split; [lia |]. split; [split; [lia | reflexivity] |].
      rewrite Hors. lia.
    + exists rho. cbn [shr_m shr_r shr_s].
      split; [rewrite HP, (Pos2Z.inj_xO p); ring |].
      split; [lia |]. split; [split; [discriminate | lia] |].
      rewrite Hors. lia.
    + exists (K + rho). cbn [shr_m shr_r shr_s].
      split; [rewrite HP; ring |].
      split; [lia |]. split; [split; [lia | reflexivity] |].
      rewrite Hors. lia.
Qed.

Lemma shr_inv_iter (P : Z) (n : positive) : forall (K : Z) (mrs : shr_record),
  shr_inv P K mrs -> shr_inv P (K * 2 ^ Zpos n) (iter_pos shr_1 n mrs).
Proof.
  induction n as [n IH | n IH |]; intros K mrs Hinv; cbn [iter_pos].
  - replace (K * 2 ^ Zpos n~1) with (2 * K * 2 ^ Zpos n * 2 ^ Zpos n).
    + apply IH, IH, shr_inv_step, Hinv.
    + rewrite (Pos2Z.inj_xI n).
      replace (2 * Zpos n + 1) with (1 + Zpos n + Zpos n) by lia.
      rewrite (Z.pow_add_r 2 (1 + Zpos n) (Zpos n)) by lia.
      rewrite (Z.pow_add_r 2 1 (Zpos n)) by lia.
      change (2 ^ 1) with 2. ring.
  - replace (K * 2 ^ Zpos n~0) with (K * 2 ^ Zpos n * 2 ^ Zpos n).
    + apply IH, IH, Hinv.
    + rewrite (Pos2Z.inj_xO n).
      replace (2 * Zpos n) with (Zpos n + Zpos n) by lia.
      rewrite (Z.pow_add_r 2 (Zpos n) (Zpos n)) by lia. ring.
  - change (2 ^ 1) with 2. rewrite Z.mul_comm.
    apply shr_inv_step, Hinv.
Qed.

(** Rounding to nearest: the rounded quotient is within half a unit. *)
Lemma shr_inv_nearest (P K : Z) (mrs : shr_record) :
  shr_inv P K mrs ->
  let M := round_nearest_even (shr_m mrs) (loc_of_shr_record mrs) in
  shr_m mrs <= M <= shr_m mrs + 1
  /\ - K <= 2 * (M * K - P) <= K.
Proof.
  intros (HK & Hm & rho & HP & Hrho & Hr & Hs) M.
  split; [apply round_nearest_even_bounds |].
  subst M. destruct mrs as [m r s]; cbn [shr_m shr_r shr_s] in *.
  destruct r, s; cbn [loc_of_shr_record round_nearest_even].
  - assert (K <= 2 * rho) by (apply Hr; reflexivity).
    rewrite Z.mul_add_distr_r. lia.
  - assert (K <= 2 * rho) by (apply Hr; reflexivity).
    assert (~ (0 < rho /\ 2 * rho <> K)) by (rewrite <- Hs; discriminate).
    destruct (Z.even m); [lia |]. rewrite Z.mul_add_distr_r. lia.
  - assert (~ K <= 2 * rho) by (rewrite <- Hr; discriminate). lia.
  - assert (~ K <= 2 * rho) by (rewrite <- Hr; discriminate). lia.
Qed.

(** Rounding an exact integer mantissa [P] of [d > 53] digits to nearest. *)
Lemma binary_round_aux_nearest (P : positive) (E d : Z) :
  Zpos (digits2_pos P) = d -> 53 < d -> -1074 <= d + E - 53 ->
  exists M : positive,
    4503599627370496 <= Zpos M <= 9007199254740992
    /\ - 2 ^ (d - 53) <= 2 * (Zpos M * 2 ^ (d - 53) - Zpos P) <= 2 ^ (d - 53)
    /\ (Zpos M < 9007199254740992 ->
        binary_round_aux prec emax false (Zpos P) E loc_Exact
        = if E + (d - 53) <=? 971 then S754_finite false M (E + (d - 53))
          else S754_infinity false).
Proof.
  intros Hd Hd53 Hmin.
  unfold binary_round_aux.
  unfold shr_fexp at 1. cbn [Zdigits2]. rewrite Hd.
  assert (Hn : fexp prec emax (d + E) - E = d - 53).
  { unfold fexp, SpecFloat.emin, prec, emax. lia. }
  rewrite Hn.
  destruct (d - 53) as [| n | n] eqn:En; try lia.
  cbn [shr_record_of_loc shr].
  set (mrs := iter_pos shr_1 n _).
  assert (Hinv : shr_inv (Zpos P) (2 ^ Zpos n) mrs).
  { replace (2 ^ Zpos n) with (1 * 2 ^ Zpos n) by lia.
    apply shr_inv_iter, shr_inv_init. lia. }
  assert (Hq : shr_m mrs = Zpos P / 2 ^ Zpos n).
  { unfold mrs. rewrite iter_shr_1_m; cbn [shr_m]; [reflexivity | lia]. }
  assert (Hqb : 4503599627370496 <= shr_m mrs < 9007199254740992)
    by (rewrite Hq; exact (shifted_quotient_bounds P d n Hd En)).
  destruct (shr_inv_nearest _ _ _ Hinv) as [Hr Hnear].
  destruct (round_nearest_even (shr_m mrs) (loc_of_shr_record mrs))
    as [| M | M]; try lia.
  exists M. split; [lia |]. split; [exact Hnear |].
  intros Htop.
  assert (HdM : Zpos (digits2_pos M) = 53) by (apply digits_53; lia).
  unfold shr_fexp. cbn [Zdigits2]. rewrite HdM.
  replace (fexp prec emax (53 + (E + Zpos n)) - (E + Zpos n)) with 0
    by (unfold fexp, SpecFloat.emin, prec, emax; lia).
  cbn [shr shr_record_of_loc shr_m].
  unfold prec, emax. reflexivity.
Qed.

(** Rounding a 53-digit mantissa that comes with a location. *)
Lemma binary_round_aux_located (q : positive) (e : Z) (l : location) :
  Zpos (digits2_pos q) = 53 -> -1074 <= e ->
  forall M : positive,
    round_nearest_even (Zpos q) l = Zpos M ->
    Zpos M < 9007199254740992 ->
    binary_round_aux prec emax false (Zpos q) e l
    = if e <=? 971 then S754_finite false M e else S754_infinity false.
Proof.
  intros Hdq He M HM Htop.
  pose proof (round_nearest_even_bounds (Zpos q) l) as Hb. rewrite HM in Hb.
  pose proof (digits2_pos_bounds q) as Hq. rewrite Hdq in Hq.
  change (2 ^ (53 - 1)) with 4503599627370496 in Hq.
  change (2 ^ 53) with 9007199254740992 in Hq.
  unfold binary_round_aux.
  unfold shr_fexp at 1. cbn [Zdigits2]. rewrite Hdq.
  replace (fexp prec emax (53 + e) - e) with 0
    by (unfold fexp, SpecFloat.emin, prec, emax; lia).
  cbn [shr].
  assert (Hloc : loc_of_shr_record (shr_record_of_loc (Zpos q) l) = l).
  { destruct l as [| []]; reflexivity. }
  assert (Hm : shr_m (shr_record_of_loc (Zpos q) l) = Zpos q).
  { destruct l as [| []]; reflexivity. }
  rewrite Hloc, Hm, HM.
  assert (HdM : Zpos (digits2_pos M) = 53) by (apply digits_53; lia).
  unfold shr_fexp. cbn [Zdigits2]. rewrite HdM.
  replace (fexp prec emax (53 + e) - e) with 0
    by (unfold fexp, SpecFloat.emin, prec, emax; lia).
  cbn [shr shr_record_of_loc shr_m].
  unfold prec, emax. reflexivity.
Qed.

(** ** The two thresholds, as percentages *)

Lemma Prim2SF_half : Prim2SF 0.5 = S754_finite false 4503599627370496 (-53).
Proof. reflexivity. Qed.
Lemma Prim2SF_100 : Prim2SF 100 = S754_finite false 7036874417766400 (-46).
Proof. reflexivity. Qed.
Lemma Prim2SF_50 : Prim2SF 50 = S754_finite false 7036874417766400 (-47).
Proof. reflexivity. Qed.
Lemma Prim2SF_three_quarters :
  Prim2SF 0.75 = S754_finite false 6755399441055744 (-53).
Proof. reflexivity. Qed.
Lemma Prim2SF_75 : Prim2SF 75 = S754_finite false 5277655813324800 (-46).
Proof. reflexivity. Qed.

Lemma SFleb_finite_pos (m1 m2 : positive) (e1 e2 : Z) :
  SFleb (S754_finite false m1 e1) (S754_finite false m2 e2) = true <->
  e1 < e2 \/ (e1 = e2 /\ Zpos m1 <= Zpos m2).
Proof.
  unfold SFleb, SFcompare.
  destruct (Z.compare_spec e1 e2) as [He | He | He].
  - change (Pos.compare_cont Eq m1 m2) with (Pos.compare m1 m2).
    destruct (Pos.compare_spec m1 m2) as [Hm | Hm | Hm]; split; intros Hx;
      try reflexivity; try discriminate; try lia.
  - split; intros; [lia | reflexivity].
  - split; intros Hx; [discriminate | lia].
Qed.

Lemma SFltb_finite_pos (m1 m2 : positive) (e1 e2 : Z) :
  SFltb (S754_finite false m1 e1) (S754_finite false m2 e2) = true <->
  e1 < e2 \/ (e1 = e2 /\ Zpos m1 < Zpos m2).
Proof.
  unfold SFltb, SFcompare.
  destruct (Z.compare_spec e1 e2) as [He | He | He].
  - change (Pos.compare_cont Eq m1 m2) with (Pos.compare m1 m2).
    destruct (Pos.compare_spec m1 m2) as [Hm | Hm | Hm]; split; intros Hx;
      try reflexivity; try discriminate; try lia.
  - split; intros; [lia | reflexivity].
  - split; intros Hx; [discriminate | lia].
Qed.

(** The digits of [m * 100] for a normal mantissa [m]. *)
Lemma times_100_digits (m : positive) :
  4503599627370496 <= Zpos m < 9007199254740992 ->
  (Zpos (digits2_pos (m * 7036874417766400)) = 105
   /\ Zpos m <= 5764607523034234)
  \/ (Zpos (digits2_pos (m * 7036874417766400)) = 106
      /\ 5764607523034235 <= Zpos m).
Proof.
  intros Hm.
  assert (HP : Zpos (m * 7036874417766400) = Zpos m * 7036874417766400)
    by reflexivity.
  destruct (Z_le_gt_dec (Zpos m) 5764607523034234) as [Hle | Hgt].
  - left. split; [| exact Hle].
    apply digits2_pos_unique; [| lia]. rewrite HP.
    change (2 ^ (105 - 1)) with 20282409603651670423947251286016.
    change (2 ^ 105) with 40564819207303340847894502572032. lia.
  - right. split; [| lia].
    apply digits2_pos_unique; [| lia]. rewrite HP.
    change (2 ^ (106 - 1)) with 40564819207303340847894502572032.
    change (2 ^ 106) with 81129638414606681695789005144064. lia.
Qed.

(** A score of at least 0.5 is reported as at least 50 percent. *)
Lemma mul_100_threshold (s : float) :
  (0.5 <=? s)%float = true -> (50 <=? s * 100)%float = true.
Proof.
  rewrite !leb_spec, mul_spec, Prim2SF_half, Prim2SF_100, Prim2SF_50.
  pose proof (Prim2SF_valid s) as Hv.
  destruct (Prim2SF s) as [sg | sg | | sg m e].
  - discriminate.
  - destruct sg; [discriminate | reflexivity].
  - discriminate.
  - destruct sg; [discriminate |].
    rewrite SFleb_finite_pos. intros Hs.
    cbn [valid_binary] in Hv.
    destruct (valid_normal m e Hv ltac:(lia)) as [Hm He].
    unfold SF64mul, SFmul. cbn [xorb].
    assert (HP : Zpos (m * 7036874417766400) = Zpos m * 7036874417766400)
      by reflexivity.
    destruct (times_100_digits m Hm) as [[Hd Hm'] | [Hd Hm']];
      destruct (binary_round_aux_shift _ (e + -46) _ Hd ltac:(lia) ltac:(lia))
        as (M & e'' & -> & Hcase);
      (destruct (e'' <=? 971); [| reflexivity]);
      apply SFleb_finite_pos.
    + change (2 ^ (105 - 53)) with 4503599627370496 in Hcase.
      rewrite HP in Hcase.
      destruct Hcase as [[-> HM] | [-> ->]]; [| lia].
      destruct (Z.eq_dec e (-53)) as [-> | Hne]; [right | left; lia].
      split; [reflexivity |].
      assert (7036874417766400
              <= Zpos m * 7036874417766400 / 4503599627370496)
        by (apply Z.div_le_lower_bound; lia).
      lia.
    + left. destruct Hcase as [[-> _] | [-> _]]; lia.
Qed.

(** A score of at least 0.75 is reported as at least 75 percent. *)
Lemma mul_100_reject (s : float) :
  (0.75 <=? s)%float = true -> (75 <=? s * 100)%float = true.
Proof.
  rewrite !leb_spec, mul_spec, Prim2SF_three_quarters, Prim2SF_100, Prim2SF_75.
  pose proof (Prim2SF_valid s) as Hv.
  destruct (Prim2SF s) as [sg | sg | | sg m e].
  - discriminate.
  - destruct sg; [discriminate | reflexivity].
  - discriminate.
  - destruct sg; [discriminate |].
    rewrite SFleb_finite_pos. intros Hs.
    cbn [valid_binary] in Hv.
    destruct (valid_normal m e Hv ltac:(lia)) as [Hm He].
    unfold SF64mul, SFmul. cbn [xorb].
    assert (HP : Zpos (m * 7036874417766400) = Zpos m * 7036874417766400)
      by reflexivity.
    destruct (times_100_digits m Hm) as [[Hd Hm'] | [Hd Hm']];
      destruct (binary_round_aux_shift _ (e + -46) _ Hd ltac:(lia) ltac:(lia))
        as (M & e'' & -> & Hcase);
      (destruct (e'' <=? 971); [| reflexivity]);
      apply SFleb_finite_pos.
    + change (2 ^ (105 - 53)) with 4503599627370496 in Hcase.
      rewrite HP in Hcase.
      destruct Hcase as [[-> HM] | [-> ->]]; [| lia].
      destruct (Z.eq_dec e (-52)) as [-> | Hne]; [right | left; lia].
      split; [reflexivity |].
      assert (7036874417766400
              <= Zpos m * 7036874417766400 / 4503599627370496)
        by (apply Z.div_le_lower_bound; lia).
      lia.
    + change (2 ^ (106 - 53)) with 9007199254740992 in Hcase.
      rewrite HP in Hcase.
      destruct Hcase as [[-> HM] | [-> ->]]; [| lia].
      destruct (Z.eq_dec e (-53)) as [-> | Hne]; [right | left; lia].
      split; [reflexivity |].
      assert (5277655813324800
              <= Zpos m * 7036874417766400 / 9007199254740992)
        by (apply Z.div_le_lower_bound; lia).
      lia.
Qed.

(** A qualifying score below 0.75 is reported below 75 percent. *)
Lemma mul_100_keep (s : float) :
  (0.5 <=? s)%float = true -> (s <? 0.75)%float = true ->
  (75 <=? s * 100)%float = false.
Proof.
  rewrite !leb_spec, ltb_spec, mul_spec, Prim2SF_half,
    Prim2SF_three_quarters, Prim2SF_100, Prim2SF_75.
  pose proof (Prim2SF_valid s) as Hv.
  destruct (Prim2SF s) as [sg | sg | | sg m e]; try discriminate.
  - destruct sg; discriminate.
  - destruct sg; [discriminate |].
    rewrite SFleb_finite_pos, SFltb_finite_pos. intros Hlo Hhi.
    cbn [valid_binary] in Hv.
    destruct (valid_normal m e Hv ltac:(lia)) as [Hm He].
    assert (e = -53) by lia. subst e.
    unfold SF64mul, SFmul. cbn [xorb].
    assert (HP : Zpos (m * 7036874417766400) = Zpos m * 7036874417766400)
      by reflexivity.
    assert (Hnot : forall M e'',
               e'' < -46 \/ (e'' = -46 /\ Zpos M < 5277655813324800) ->
               SFleb (S754_finite false 5277655813324800 (-46))
                     (S754_finite false M e'') = false).
    { intros M e'' HMe.
      destruct (SFleb _ _) eqn:Hle; [| reflexivity].
      apply SFleb_finite_pos in Hle. lia. }
    destruct (times_100_digits m Hm) as [[Hd Hm'] | [Hd Hm']];
      destruct (binary_round_aux_nearest _ (-53 + -46) _ Hd
                  ltac:(lia) ltac:(lia)) as (M & HM & Hnear & Hround);
      rewrite HP in Hnear.
    + change (2 ^ (105 - 53)) with 4503599627370496 in Hnear.
      rewrite Hround by lia.
      change (-53 + -46 + (105 - 53) <=? 971) with true. cbv iota.
      apply Hnot. left. lia.
    + change (2 ^ (106 - 53)) with 9007199254740992 in Hnear.
      rewrite Hround by lia.
      change (-53 + -46 + (106 - 53) <=? 971) with true. cbv iota.
      apply Hnot. right. split; [reflexivity | lia].
Qed.

(** ** The square root of a square *)

(** The square root of a located mantissa [M * K] close to [m * m]. *)
Lemma sqrtrem_near_square (m M K : Z) :
  4503599627370496 <= m ->
  K <= 2 * (m - 1) -> 0 < K ->
  - K <= 2 * (M * K - m * m) <= K ->
  4503599627370496 * 4503599627370496 <= M * K ->
  forall q r, Z.sqrtrem (M * K) = (q, r) ->
    4503599627370496 <= q
    /\ ((q = m /\ r <= q) \/ (q = m - 1 /\ q < r)).
Proof.
  intros Hm HK HK0 Hnear Hlow q r Hqr.
  pose proof (Z.sqrtrem_spec (M * K) ltac:(lia)) as Hspec.
  rewrite Hqr in Hspec. destruct Hspec as [Hsq Hr].
  assert (Hq0 : 0 <= q) by lia.
  assert (Hqm : q <= m).
  { destruct (Z_le_gt_dec q m) as [Hle | Hgt]; [exact Hle | exfalso].
    assert (m + 1 <= q) by lia.
    assert ((m + 1) * (m + 1) <= q * q)
      by (apply Z.mul_le_mono_nonneg; lia).
    lia. }
  assert (Hmq : m - 1 <= q).
  { destruct (Z_le_gt_dec (m - 1) q) as [Hle | Hgt]; [exact Hle | exfalso].
    assert (q + 1 <= m - 1) by lia.
    assert ((q + 1) * (q + 1) <= (m - 1) * (m - 1))
      by (apply Z.mul_le_mono_nonneg; lia).
    lia. }
  split.
  - destruct (Z_le_gt_dec 4503599627370496 q) as [Hle | Hgt];
      [exact Hle | exfalso].
    assert (q + 1 <= 4503599627370496) by lia.
    assert ((q + 1) * (q + 1) <= 4503599627370496 * 4503599627370496)
      by (apply Z.mul_le_mono_nonneg; lia).
    lia.
  - destruct (Z.eq_dec q m) as [-> | Hne]; [left; split; lia |].
    right. assert (q = m - 1) by lia. subst q. split; lia.
Qed.

Lemma square_digits (m : positive) :
  4503599627370496 <= Zpos m < 9007199254740992 ->
  (Zpos (digits2_pos (m * m)) = 105
   /\ Zpos m * Zpos m <= 40564819207303333655658004195984)
  \/ (Zpos (digits2_pos (m * m)) = 106
      /\ 4503599627370497 <= Zpos m
      /\ Zpos m * Zpos m <= 81129638414606663681390495662081).
Proof.
  intros Hm.
  assert (HP : Zpos (m * m) = Zpos m * Zpos m) by reflexivity.
  destruct (Z_lt_le_dec (Zpos m * Zpos m) (2 ^ 105)) as [Hlt | Hge].
  - left. split.
    + apply digits2_pos_unique; [| lia]. rewrite HP. split; [| exact Hlt].
      change (2 ^ (105 - 1)) with (4503599627370496 * 4503599627370496).
      apply Z.mul_le_mono_nonneg; lia.
    + change (2 ^ 105) with 40564819207303340847894502572032 in Hlt.
      assert (Zpos m <= 6369051672525772).
      { destruct (Z_le_gt_dec (Zpos m) 6369051672525772) as [H | H];
          [exact H | exfalso].
        assert (6369051672525773 * 6369051672525773 <= Zpos m * Zpos m)
          by (apply Z.mul_le_mono_nonneg; lia).
        lia. }
      change 40564819207303333655658004195984
        with (6369051672525772 * 6369051672525772).
      apply Z.mul_le_mono_nonneg; lia.
  - right. split; [| split].
    + apply digits2_pos_unique; [| lia]. rewrite HP. split; [exact Hge |].
      change (2 ^ 106) with (9007199254740992 * 9007199254740992).
      apply Z.mul_lt_mono_nonneg; lia.
    + change (2 ^ 105) with 40564819207303340847894502572032 in Hge.
      destruct (Z_le_gt_dec 4503599627370497 (Zpos m)) as [H | H];
        [exact H | exfalso].
      assert (Zpos m * Zpos m <= 4503599627370496 * 4503599627370496)
        by (apply Z.mul_le_mono_nonneg; lia).
      lia.
    + change 81129638414606663681390495662081
        with (9007199254740991 * 9007199254740991).
      apply Z.mul_le_mono_nonneg; lia.
Qed.

(** The square root of [M * 2^n * 2^(2e)], where [M * 2^n] is [m * m]
    rounded to 53 digits ([n] is 52 or 53), rounds to [m * 2^e]. *)
Lemma SFsqrt_rounded_square (m M : positive) (e : Z) (n : positive) :
  (n = 52 \/ n = 53)%positive ->
  4503599627370496 <= Zpos m < 9007199254740992 ->
  4503599627370496 <= Zpos M < 9007199254740992 ->
  2 ^ Zpos n <= 2 * (Zpos m - 1) ->
  - 2 ^ Zpos n <= 2 * (Zpos M * 2 ^ Zpos n - Zpos m * Zpos m) <= 2 ^ Zpos n ->
  -552 <= e <= 448 ->
  SF64sqrt (S754_finite false M (e + e + Zpos n)) = S754_finite false m e.
Proof.
  intros Hn Hm HM HK Hnear He.
  unfold SF64sqrt, SFsqrt, SFsqrt_core_binary. cbn [Zdigits2].
  rewrite (digits_53 M HM).
  replace (Z.min (fexp prec emax (Z.div2 (53 + (e + e + Zpos n) + 1)))
                 (Z.div2 (e + e + Zpos n))) with e
    by (rewrite !Z.div2_div; unfold fexp, SpecFloat.emin, prec, emax;
        change IntDef.Z.max with Z.max;
        destruct Hn as [-> | ->]; Z.div_mod_to_equations; lia).
  replace (e + e + Zpos n - 2 * e) with (Zpos n) by lia.
  rewrite Z.shiftl_mul_pow2 by lia.
  assert (HK0 : 0 < 2 ^ Zpos n) by (apply Z.pow_pos_nonneg; lia).
  assert (Hlow : 4503599627370496 * 4503599627370496 <= Zpos M * 2 ^ Zpos n).
  { assert (4503599627370496 <= 2 ^ Zpos n)
      by (destruct Hn as [-> | ->]; apply Z.leb_le; reflexivity).
    apply Z.mul_le_mono_nonneg; lia. }
  destruct (Z.sqrtrem (Zpos M * 2 ^ Zpos n)) as [q r] eqn:Hqr.
  destruct (sqrtrem_near_square (Zpos m) (Zpos M) (2 ^ Zpos n)
              ltac:(lia) HK HK0 Hnear Hlow q r Hqr) as [Hq Hcase].
  destruct q as [| q | q]; try lia.
  rewrite (binary_round_aux_located q e _
             (digits_53 q ltac:(lia)) ltac:(lia) m).
  - replace (e <=? 971) with true by (symmetry; apply Z.leb_le; lia).
    reflexivity.
  - destruct Hcase as [[Hqm Hrq] | [Hqm Hrq]].
    + destruct (r =? 0); cbn [round_nearest_even]; [exact Hqm |].
      replace (r <=? Zpos q) with true by (symmetry; apply Z.leb_le; lia).
      cbn [round_nearest_even]. exact Hqm.
    + replace (r =? 0) with false by (symmetry; apply Z.eqb_neq; lia).
      replace (r <=? Zpos q) with false by (symmetry; apply Z.leb_gt; lia).
      cbn [round_nearest_even]. lia.
  - lia.
Qed.

(** In binary64 the square root of a rounded square gives the number
    back, as long as the square stays in the normal range. *)
Lemma SFsqrt_sqr (m : positive) (e : Z) :
  4503599627370496 <= Zpos m < 9007199254740992 ->
  -552 <= e <= 448 ->
  SF64sqrt (SF64mul (S754_finite false m e) (S754_finite false m e))
  = S754_finite false m e.
Proof.
  intros Hm He.
  unfold SF64mul, SFmul. cbn [xorb].
  assert (HP : Zpos (m * m) = Zpos m * Zpos m) by reflexivity.
  destruct (square_digits m Hm) as [[Hd Hsq] | [Hd [Hm' Hsq]]];
    destruct (binary_round_aux_nearest (m * m) (e + e) _ Hd
                ltac:(lia) ltac:(lia)) as (M & HM & Hnear & Hround);
    rewrite HP in Hnear.
  - change (105 - 53) with 52 in *.
    change (2 ^ 52) with 4503599627370496 in Hnear.
    rewrite Hround by lia.
    replace (e + e + 52 <=? 971) with true
      by (symmetry; apply Z.leb_le; lia).
    apply (SFsqrt_rounded_square m M e 52); try lia;
      change (2 ^ 52) with 4503599627370496; lia.
  - change (106 - 53) with 53 in *.
    change (2 ^ 53) with 9007199254740992 in Hnear.
    rewrite Hround by lia.
    replace (e + e + 53 <=? 971) with true
      by (symmetry; apply Z.leb_le; lia).
    apply (SFsqrt_rounded_square m M e 53); try lia;
      change (2 ^ 53) with 9007199254740992; lia.
Qed.

Lemma SFdiv_self (m : positive) (e : Z) :
  Zpos (digits2_pos m) = 53 ->
  SF64div (S754_finite false m e) (S754_finite false m e)
  = S754_finite false 4503599627370496 (-52).
Proof.
  intros Hd.
  unfold SF64div, SFdiv, SFdiv_core_binary. cbn [xorb Zdigits2].
  rewrite Hd.
  replace (53 + e - (53 + e)) with 0 by lia.
  replace (e - e) with 0 by lia.
  change (Z.min (fexp prec emax 0) 0) with (-53).
  change (0 - -53) with 53.
  rewrite Z.shiftl_mul_pow2 by lia.
  change (2 ^ 53) with 9007199254740992.
  destruct (Z.div_eucl (Zpos m * 9007199254740992) (Zpos m)) as [q r] eqn:Hqr.
  assert (Hq : q = 9007199254740992).
  { change q with (fst (q, r)). rewrite <- Hqr.
    change (fst (Z.div_eucl ?a ?b)) with (a / b).
    rewrite Z.mul_comm. apply Z.div_mul. lia. }
  assert (Hr : r = 0).
  { change r with (snd (q, r)). rewrite <- Hqr.
    change (snd (Z.div_eucl ?a ?b)) with (a mod b).
    rewrite Z.mul_comm. apply Z.mod_mul. lia. }
  subst q r.
  assert (Hloc : new_location (Zpos m) 0 = loc_Exact).
  { unfold new_location. destruct (Z.even (Zpos m)); reflexivity. }
  rewrite Hloc. reflexivity.
Qed.

Lemma Prim2SF_low : Prim2SF 0x1p-500 = S754_finite false 4503599627370496 (-552).
Proof. reflexivity. Qed.
Lemma Prim2SF_high : Prim2SF 0x1p+500 = S754_finite false 4503599627370496 448.
Proof. reflexivity. Qed.

(** A number between 2^-500 and 2^500 is a positive normal number. *)
Lemma moderate_normal (x : float) :
  (0x1p-500 <=? x)%float = true -> (x <=? 0x1p+500)%float = true ->
  exists (m : positive) (e : Z),
    Prim2SF x = S754_finite false m e
    /\ 4503599627370496 <= Zpos m < 9007199254740992
    /\ -552 <= e <= 448.
Proof.
  rewrite !leb_spec, Prim2SF_low, Prim2SF_high.
  pose proof (Prim2SF_valid x) as Hv.
  destruct (Prim2SF x) as [sg | sg | | sg m e]; try discriminate.
  - destruct sg; discriminate.
  - destruct sg; [discriminate |].
    rewrite !SFleb_finite_pos. intros Hlo Hhi.
    cbn [valid_binary] in Hv.
    destruct (valid_normal m e Hv ltac:(lia)) as [Hm _].
    exists m, e. split; [reflexivity |]. split; [exact Hm | lia].
Qed.

Lemma float_sqrt_sqr (x : float) :
  (0x1p-500 <=? x)%float = true -> (x <=? 0x1p+500)%float = true ->
  sqrt (x * x) = x.
Proof.
  intros Hlo Hhi.
  destruct (moderate_normal x Hlo Hhi) as (m & e & Hx & Hm & He).
  apply Prim2SF_inj. rewrite sqrt_spec, mul_spec, Hx.
  apply SFsqrt_sqr; assumption.
Qed.

Lemma float_div_self (x : float) :
  (0x1p-500 <=? x)%float = true -> (x <=? 0x1p+500)%float = true ->
  (x / x = 1)%float.
Proof.
  intros Hlo Hhi.
  destruct (moderate_normal x Hlo Hhi) as (m & e & Hx & Hm & He).
  apply Prim2SF_inj. rewrite div_spec, Hx.
  change (Prim2SF 1) with (S754_finite false 4503599627370496 (-52)).
  apply SFdiv_self, digits_53, Hm.
Qed.

(** A finite number minus itself is +0. *)
Lemma float_sub_self (x : float) :
  is_finite x = true -> (x - x = 0)%float.
Proof.
  unfold is_finite, is_nan, is_infinity.
  rewrite negb_true_iff, orb_false_iff, negb_false_iff.
  rewrite !eqb_spec, abs_spec.
  change (Prim2SF infinity) with (S754_infinity false).
  intros [Hnan Hinf].
  apply Prim2SF_inj. rewrite sub_spec.
  change (Prim2SF 0) with (S754_zero false).
  destruct (Prim2SF x) as [sg | sg | | sg m e].
  - destruct sg; reflexivity.
  - discriminate.
  - discriminate.
  - unfold SF64sub, SFsub. rewrite Z.sub_diag. reflexivity.
Qed.

(** ** Commutativity and sign symmetry *)

Lemma SFmul_comm (x y : spec_float) : SF64mul x y = SF64mul y x.
Proof.
  unfold SF64mul, SFmul.
  destruct x as [sx | sx | | sx mx ex], y as [sy | sy | | sy my ey];
    try reflexivity;
    try (rewrite (xorb_comm sx sy); reflexivity).
  rewrite (xorb_comm sx sy), (Pos.mul_comm mx my), (Z.add_comm ex ey).
  reflexivity.
Qed.

Lemma float_mul_comm (x y : float) : (x * y = y * x)%float.
Proof.
  apply Prim2SF_inj. rewrite !mul_spec. apply SFmul_comm.
Qed.

(** The sign of a rounded result is the sign that was passed in. *)
Lemma binary_round_aux_opp (s : bool) (m e : Z) (l : location) :
  binary_round_aux prec emax (negb s) m e l
  = SFopp (binary_round_aux prec emax s m e l).
Proof.
  unfold binary_round_aux.
  destruct (shr_fexp prec emax m e l) as [mrs' e'].
  destruct (shr_fexp prec emax _ e' loc_Exact) as [mrs'' e''].
  destruct (shr_m mrs''); [reflexivity | | reflexivity].
  destruct (e'' <=? emax - prec)%Z; reflexivity.
Qed.

Lemma binary_normalize_opp (m e : Z) :
  binary_normalize prec emax (- m) e false
  = match m with
    | Z0 => S754_zero false
    | _ => SFopp (binary_normalize prec emax m e false)
    end.
Proof.
  destruct m as [| p | p]; cbn [Z.opp binary_normalize]; [reflexivity | |];
    unfold binary_round;
    destruct (shl_align p e _) as [mz ez].
  - apply (binary_round_aux_opp false).
  - rewrite (binary_round_aux_opp false). 
    destruct (binary_round_aux prec emax false (Z.pos mz) ez loc_Exact) as [[]|[]| |[]]; reflexivity.
Qed.

Lemma SFsub_swap (x y : spec_float) :
  SF64sub y x = SFopp (SF64sub x y) \/ SF64sub y x = SF64sub x y.
Proof.
  unfold SF64sub, SFsub.
  destruct x as [sx | sx | | sx mx ex], y as [sy | sy | | sy my ey];
    try (destruct sx, sy; cbn; auto; fail);
    try (destruct sx; cbn; auto; fail);
    try (destruct sy; cbn; auto; fail);
    try (cbn; auto; fail).
  rewrite (Z.min_comm ey ex).
    set (a := cond_Zopp sx _). set (b := cond_Zopp sy _).
    replace (b - a)%Z with (- (a - b))%Z by lia.
    rewrite binary_normalize_opp.
    destruct (a - b)%Z; cbn [binary_normalize]; auto.
Qed.

(** Dividing by a zero never raises and never gives a finite number. *)
Lemma float_div_zero (x d : float) :
  (d =? 0)%float = true -> is_finite (x / d)%float = false.
Proof.
  rewrite eqb_spec. change (Prim2SF 0) with (S754_zero false).
  intros Hd.
  unfold is_finite, is_nan, is_infinity.
  rewrite !eqb_spec, abs_spec, div_spec.
  change (Prim2SF infinity) with (S754_infinity false).
  destruct (Prim2SF d) as [sd | sd | | sd md ed];
    [ | destruct sd; discriminate | discriminate | destruct sd; discriminate ].
  destruct (Prim2SF x) as [sx | sx | | sx mx ex]; try reflexivity;
    destruct sx, sd; reflexivity.
Qed.

(** ** NaN is not ordered *)

Lemma SFeqb_refl (x : spec_float) : x <> S754_nan -> SFeqb x x = true.
Proof.
  unfold SFeqb, SFcompare.
  destruct x as [s | s | | s m e]; intros Hx;
    [reflexivity | destruct s; reflexivity | congruence |].
  rewrite Z.compare_refl.
  change (Pos.compare_cont Eq m m) with (Pos.compare m m).
  rewrite Pos.compare_refl. destruct s; reflexivity.
Qed.

Lemma is_nan_spec (x : float) : is_nan x = true -> Prim2SF x = S754_nan.
Proof.
  unfold is_nan. rewrite eqb_spec, negb_true_iff. intros Hx.
  destruct (Prim2SF x) as [s | s | | s m e] eqn:Ex; [| | reflexivity |];
    rewrite SFeqb_refl in Hx by discriminate; discriminate.
Qed.

Lemma leb_nan (t x : float) : is_nan x = true -> (t <=? x)%float = false.
Proof.
  intros Hx. rewrite leb_spec, (is_nan_spec x Hx).
  unfold SFleb, SFcompare. destruct (Prim2SF t); reflexivity.
Qed.

(** ** Absolute values *)

Lemma SFabs_opp (z : spec_float) : SFabs (SFopp z) = SFabs z.
Proof. destruct z as [s | s | | s m e]; reflexivity. Qed.

Lemma float_abs_sub_swap (x y : float) : abs (x - y) = abs (y - x).
Proof.
  apply Prim2SF_inj. rewrite !abs_spec, !sub_spec.
  destruct (SFsub_swap (Prim2SF y) (Prim2SF x)) as [-> | ->];
    [apply SFabs_opp | reflexivity].
Qed.

Lemma float_abs_abs (x : float) : abs (abs x) = abs x.
Proof.
  apply Prim2SF_inj. rewrite !abs_spec.
  destruct (Prim2SF x); reflexivity.
Qed.

Lemma float_abs_eqb_zero (x : float) : (abs x =? 0)%float = (x =? 0)%float.
Proof.
  rewrite !eqb_spec, abs_spec.
  change (Prim2SF 0) with (S754_zero false).
  destruct (Prim2SF x) as [s | s | | s m e]; try reflexivity;
    destruct s; reflexivity.
Qed.

Lemma float_is_finite_abs (x : float) : is_finite (abs x) = is_finite x.
Proof.
  unfold is_finite, is_nan, is_infinity. rewrite float_abs_abs.
  rewrite !eqb_spec, !abs_spec.
  destruct (Prim2SF x) as [s | s | | s m e] eqn:Ex;
    [reflexivity | destruct s; reflexivity | reflexivity |].
  cbn [SFabs].
  rewrite (SFeqb_refl (S754_finite false m e)) by discriminate.
  rewrite (SFeqb_refl (S754_finite s m e)) by discriminate.
  reflexivity.
Qed.

End Binary64.

(** * The duplicate scan *)

Section ScanFacts.
Context `{SpatialDistance}.

(** [get_mfcc] yields nothing, or the dump of a vector. *)
Lemma get_mfcc_shape (fs : files) (path : string) :
  get_mfcc fs path = None
  \/ exists cand, get_mfcc fs path = Some (json.dumps cand).
Proof.
  unfold get_mfcc.
  destruct (librosa_mfcc fs path) as [m | e]; [right | left; reflexivity].
  eexists. reflexivity.
Qed.

Lemma scan_step_dumped (cand : vec) (r : audio_row) :
  scan_step (json.dumps cand) (mfcc r)
  = match score_of cand r with
    | Some s => if (0.50 <=? s)%float then Some (s * 100)%float else None
    | None => None
    end.
Proof.
  unfold scan_step, score_of.
  destruct (mfcc r) as [stored |]; reflexivity.
Qed.

Lemma scan_step_miss (cand : vec) (r : audio_row) :
  reaches cand r = false -> scan_step (json.dumps cand) (mfcc r) = None.
Proof.
  rewrite scan_step_dumped. unfold reaches.
  destruct (score_of cand r) as [s |]; [| reflexivity].
  intros ->. reflexivity.
Qed.

Lemma scan_step_hit (cand : vec) (r : audio_row) (s : float) :
  score_of cand r = Some s -> (0.50 <=? s)%float = true ->
  scan_step (json.dumps cand) (mfcc r) = Some (s * 100)%float.
Proof.
  intros Hs Hle. rewrite scan_step_dumped, Hs, Hle. reflexivity.
Qed.

(** Rows that do not reach the threshold are passed over. *)
Lemma scan_skip_prefix (cand : vec) (pre rest : table) :
  (forall q, In q pre -> reaches cand q = false) ->
  scan (json.dumps cand) (select_filename_mfcc (pre ++ rest))
  = scan (json.dumps cand) (select_filename_mfcc rest).
Proof.
  induction pre as [| q pre IH]; intros Hpre; [reflexivity |].
  cbn [app select_filename_mfcc map scan].
  rewrite (scan_step_miss cand q) by (apply Hpre; left; reflexivity).
  apply IH. intros q' Hq'. apply Hpre. right. exact Hq'.
Qed.

Lemma scan_hit_head (cand : vec) (r : audio_row) (post : table) (s : float) :
  score_of cand r = Some s -> (0.50 <=? s)%float = true ->
  scan (json.dumps cand) (select_filename_mfcc (r :: post))
  = (s * 100)%float.
Proof.
  intros Hs Hle. cbn [select_filename_mfcc map scan].
  rewrite (scan_step_hit cand r s Hs Hle). reflexivity.
Qed.

(** The scan, case by case: no row reaches the threshold and the result
    is 0, or the result is the percentage of the first row that does. *)
Lemma scan_cases (cand : vec) (db : table) :
  ((forall r, In r db -> reaches cand r = false)
   /\ scan (json.dumps cand) (select_filename_mfcc db) = 0%float)
  \/ (exists pre r post s,
        db = pre ++ r :: post
        /\ (forall q, In q pre -> reaches cand q = false)
        /\ score_of cand r = Some s
        /\ (0.50 <=? s)%float = true
        /\ scan (json.dumps cand) (select_filename_mfcc db)
           = (s * 100)%float).
Proof.
  induction db as [| r db IH].
  - left. split; [intros r [] | reflexivity].
  - destruct (reaches cand r) eqn:Hr.
    + right. unfold reaches in Hr.
      destruct (score_of cand r) as [s |] eqn:Hs; [| discriminate].
      exists [], r, db, s. repeat split; try assumption.
      * intros q [].
      * apply scan_hit_head; assumption.
    + destruct IH as [[Hall H0] | (pre & r' & post & s & -> & Hpre & Hs & Hle & Hscan)].
      * left. split.
        -- intros q [<- | Hq]; [exact Hr | apply Hall; exact Hq].
        -- cbn [select_filename_mfcc map scan].
           rewrite (scan_step_miss cand r Hr). exact H0.
      * right. exists (r :: pre), r', post, s. repeat split; try assumption.
        -- intros q [<- | Hq]; [exact Hr | apply Hpre; exact Hq].
        -- cbn [app select_filename_mfcc map scan].
           rewrite (scan_step_miss cand r Hr). exact Hscan.
Qed.

(** A qualifying percentage is never 0. *)
Lemma percentage_nonzero (s : float) :
  (0.50 <=? s)%float = true -> (s * 100)%float <> 0%float.
Proof.
  intros Hle Hz. pose proof (Binary64.mul_100_threshold s Hle) as H50.
  rewrite Hz in H50. discriminate.
Qed.

(** A failed comparison is never a match. *)
Lemma comparison_error_miss (cand : vec) (r : audio_row) :
  comparison_error cand r -> reaches cand r = false.
Proof.
  unfold comparison_error, reaches, score_of.
  destruct (json.loads (mfcc r)) as [stored | e]; [| reflexivity].
  intros [[e He] | [[e He] | Hnan]].
  - unfold compute_similarity. rewrite He. reflexivity.
  - unfold compute_similarity. rewrite He.
    destruct (cosine cand stored); reflexivity.
  - apply Binary64.leb_nan. exact Hnan.
Qed.

End ScanFacts.

(** * Properties of the duplicate scan *)

Section ScanClaims.
Context `{SpatialDistance}.

(** C1.  First match, not best match: when the candidate's fingerprint
    is [cand] and [r] is the first row in scan order whose score [s]
    reaches 0.50, [check_audio_similarity] returns the percentage
    [s * 100] of that row whatever rows follow it: the result is the
    one of the corpus cut off right after [r]. *)
Theorem check_audio_similarity_first_match
    (fs : files) (path : string) (cand : vec)
    (pre : table) (r : audio_row) (post : table) (s : float) :
  get_mfcc fs path = Some (json.dumps cand) ->
  (forall q, In q pre -> reaches cand q = false) ->
  score_of cand r = Some s ->
  (0.50 <=? s)%float = true ->
  check_audio_similarity fs (pre ++ r :: post) path = (s * 100)%float
  /\ check_audio_similarity fs (pre ++ r :: post) path
     = check_audio_similarity fs (pre ++ [r]) path.
Proof.
  intros Hcand Hpre Hs Hle.
  assert (Hany : forall rest,
             check_audio_similarity fs (pre ++ r :: rest) path
             = (s * 100)%float).
  { intros rest. unfold check_audio_similarity. rewrite Hcand.
    rewrite (scan_skip_prefix cand pre (r :: rest) Hpre).
    apply scan_hit_head; assumption. }
  split; [apply Hany |].
  rewrite (Hany post), (Hany []). reflexivity.
Qed.

(** C3.  A row whose comparison fails (undecodable text, a distance that
    raises as on a length mismatch, or a NaN score) is never a match: the
    loop body falls through, and the scan goes on and returns what it
    returns on the corpus without that row.  Every exception of the loop
    body is caught, so the scan itself never fails. *)
Theorem check_audio_similarity_skips_errors
    (fs : files) (path : string) (cand : vec)
    (pre : table) (r : audio_row) (post : table) :
  get_mfcc fs path = Some (json.dumps cand) ->
  comparison_error cand r ->
  reaches cand r = false
  /\ scan_step (json.dumps cand) (mfcc r) = None
  /\ check_audio_similarity fs (pre ++ r :: post) path
     = check_audio_similarity fs (pre ++ post) path.
Proof.
  intros Hcand Herr.
  pose proof (comparison_error_miss cand r Herr) as Hmiss.
  split; [exact Hmiss |].
  split; [apply scan_step_miss; exact Hmiss |].
  unfold check_audio_similarity. rewrite Hcand.
  induction pre as [| q pre IH]; cbn [app select_filename_mfcc map scan].
  - rewrite (scan_step_miss cand r Hmiss). reflexivity.
  - destruct (scan_step (json.dumps cand) (mfcc q)); [reflexivity |].
    exact IH.
Qed.

(** C9.  The value returned is exactly 0, or a percentage of at least
    50. *)
Theorem check_audio_similarity_zero_or_50
    (fs : files) (db : table) (path : string) :
  check_audio_similarity fs db path = 0%float
  \/ (50 <=? check_audio_similarity fs db path)%float = true.
Proof.
  unfold check_audio_similarity.
  destruct (get_mfcc_shape fs path) as [-> | [cand ->]]; [left; reflexivity |].
  destruct (scan_cases cand db)
    as [[_ H0] | (pre & r & post & s & _ & _ & _ & Hle & ->)].
  - left. exact H0.
  - right. apply Binary64.mul_100_threshold. exact Hle.
Qed.

(** C5.  The scan returns 0 exactly when extraction of the candidate
    failed, the corpus is empty, or no row reaches 0.50; and on an empty
    corpus it always returns 0. *)
Theorem check_audio_similarity_not_duplicate :
  (forall (fs : files) (db : table) (path : string),
     check_audio_similarity fs db path = 0%float
     <-> (get_mfcc fs path = None
          \/ db = []
          \/ exists cand, get_mfcc fs path = Some (json.dumps cand)
               /\ forall r, In r db -> reaches cand r = false))
  /\ (forall (fs : files) (path : string),
        check_audio_similarity fs [] path = 0%float).
Proof.
  assert (Hempty : forall fs path,
             check_audio_similarity fs [] path = 0%float).
  { intros fs path. unfold check_audio_similarity.
    destruct (get_mfcc fs path); reflexivity. }
  split; [| exact Hempty].
  intros fs db path. split.
  - intros Hzero.
    destruct (get_mfcc_shape fs path) as [Hnone | [cand Hcand]];
      [left; exact Hnone |].
    right. right. exists cand. split; [exact Hcand |].
    unfold check_audio_similarity in Hzero. rewrite Hcand in Hzero.
    destruct (scan_cases cand db)
      as [[Hall _] | (pre & r & post & s & _ & _ & _ & Hle & Hscan)];
      [exact Hall |].
    rewrite Hscan in Hzero.
    exfalso. exact (percentage_nonzero s Hle Hzero).
  - intros [Hnone | [-> | (cand & Hcand & Hall)]].
    + unfold check_audio_similarity. rewrite Hnone. reflexivity.
    + apply Hempty.
    + unfold check_audio_similarity. rewrite Hcand.
      destruct (scan_cases cand db)
        as [[_ H0] | (pre & r & post & s & -> & _ & Hs & Hle & _)];
        [exact H0 |].
      exfalso.
      assert (Hr : reaches cand r = false)
        by (apply Hall, in_elt).
      unfold reaches in Hr. rewrite Hs, Hle in Hr. discriminate.
Qed.

End ScanClaims.

(** The sample corpus [far; near; same]: the scan stops at [near] and
    reports 62 percent, although [same] scores 1. *)
Lemma first_match_sample :
  check_audio_similarity Sample.folder
    ([Sample.far] ++ Sample.near :: [Sample.same]) Sample.path
  = (0.62000000000000011 * 100)%float
  /\ check_audio_similarity Sample.folder
       ([Sample.far] ++ Sample.near :: [Sample.same]) Sample.path
     = check_audio_similarity Sample.folder
         ([Sample.far] ++ [Sample.near]) Sample.path.
Proof.
  apply (check_audio_similarity_first_match
           Sample.folder Sample.path (Sample.fingerprint 0)
           [Sample.far] Sample.near [Sample.same] 0.62000000000000011%float).
  - vm_compute. reflexivity.
  - intros q [<- | []]. vm_compute. reflexivity.
  - vm_compute. reflexivity.
  - vm_compute. reflexivity.
Defined.

(** The sample corpus with a fingerprint of another length in front: the
    distances raise, the row is passed over, and the scan reaches
    [near]. *)
Lemma skips_errors_sample :
  reaches (Sample.fingerprint 0) Sample.longer = false
  /\ scan_step (json.dumps (Sample.fingerprint 0)) (mfcc Sample.longer) = None
  /\ check_audio_similarity Sample.folder
       ([Sample.damaged] ++ Sample.longer :: [Sample.near]) Sample.path
     = check_audio_similarity Sample.folder
         ([Sample.damaged] ++ [Sample.near]) Sample.path.
Proof.
  apply (check_audio_similarity_skips_errors
           Sample.folder Sample.path (Sample.fingerprint 0)
           [Sample.damaged] Sample.longer [Sample.near]).
  - vm_compute. reflexivity.
  - left. exists ValueError. vm_compute. reflexivity.
Defined.

(** * The blended score *)

Section ScoreFacts.
Context `{SpatialDistance}.

(** Whatever the two distances return, the score is their blend. *)
Lemma compute_similarity_blend (a b : vec) (c d : float) :
  cosine a b = Ok c -> euclidean a b = Ok d ->
  compute_similarity a b = spec_score c d.
Proof.
  intros Hc Hd. unfold compute_similarity, spec_score.
  rewrite Hc. cbn [bind]. rewrite Hd. cbn [bind].
  rewrite (Binary64.float_mul_comm (1 - c) 0.6).
  rewrite (Binary64.float_mul_comm (1 / (1 + d)) 0.4).
  reflexivity.
Qed.

End ScoreFacts.

Lemma zip_mul_comm (u : vec) : forall v, np.zip_mul u v = np.zip_mul v u.
Proof.
  induction u as [| x u IH]; intros [| y v]; cbn [np.zip_mul];
    try reflexivity.
  rewrite (Binary64.float_mul_comm x y), (IH v). reflexivity.
Qed.

Lemma zip_sub_abs_swap (u : vec) : forall v,
  map abs (np.zip_sub u v) = map abs (np.zip_sub v u).
Proof.
  induction u as [| x u IH]; intros [| y v]; cbn [np.zip_sub map];
    try reflexivity.
  rewrite (Binary64.float_abs_sub_swap x y), (IH v). reflexivity.
Qed.

Lemma subtract_same_length (u v : vec) :
  length u = length v -> np.subtract u v = Ok (np.zip_sub u v).
Proof.
  intros Hlen. unfold np.subtract. rewrite Hlen, Nat.eqb_refl. reflexivity.
Qed.

(** The norm and the finiteness check read absolute values only. *)
Lemma nrm2_step_abs (st : float * float) (x : float) :
  blas.nrm2_step st (abs x) = blas.nrm2_step st x.
Proof.
  unfold blas.nrm2_step. destruct st as [scale ssq].
  rewrite Binary64.float_abs_eqb_zero, Binary64.float_abs_abs. reflexivity.
Qed.

Lemma fold_nrm2_step_abs (x : vec) : forall st,
  fold_left blas.nrm2_step (map abs x) st = fold_left blas.nrm2_step x st.
Proof.
  induction x as [| x1 x IH]; intros st; [reflexivity |].
  cbn [map fold_left]. rewrite nrm2_step_abs. apply IH.
Qed.

Lemma nrm2_abs (x : vec) : blas.nrm2 (map abs x) = blas.nrm2 x.
Proof.
  destruct x as [| x1 [| x2 x]]; [reflexivity | |].
  - cbn [map blas.nrm2]. apply Binary64.float_abs_abs.
  - change (blas.nrm2 (map abs (x1 :: x2 :: x)))
      with (let '(scale, ssq) :=
              fold_left blas.nrm2_step (map abs (x1 :: x2 :: x))
                        (0%float, 1%float) in
            (scale * PrimFloat.sqrt ssq)%float).
    rewrite fold_nrm2_step_abs. reflexivity.
Qed.

Lemma all_finite_abs (x : vec) :
  np.all_finite (map abs x) = np.all_finite x.
Proof.
  unfold np.all_finite.
  induction x as [| x1 x IH]; [reflexivity |].
  cbn [map forallb]. rewrite Binary64.float_is_finite_abs, IH. reflexivity.
Qed.

Lemma norm_abs_eq (d d' : vec) :
  map abs d = map abs d' ->
  (if np.all_finite d then Ok (blas.nrm2 d) else Raise ValueError)
  = (if np.all_finite d' then Ok (blas.nrm2 d') else Raise ValueError).
Proof.
  intros Habs.
  rewrite <- (all_finite_abs d), <- (nrm2_abs d), Habs.
  rewrite all_finite_abs, nrm2_abs. reflexivity.
Qed.

Lemma dot_self (u : vec) : np.dot u u = Ok (np.sum (np.zip_mul u u)).
Proof. unfold np.dot. rewrite Nat.eqb_refl. reflexivity. Qed.

Lemma scipy_cosine_sym (u v : vec) : scipy.cosine u v = scipy.cosine v u.
Proof.
  unfold scipy.cosine. rewrite !dot_self. unfold np.dot.
  rewrite (Nat.eqb_sym (length v) (length u)), (zip_mul_comm v u).
  destruct (length u =? length v)%nat; [| reflexivity].
  cbn [bind].
  rewrite (Binary64.float_mul_comm (np.sum (np.zip_mul v v))).
  reflexivity.
Qed.

Lemma map_sub_abs_swap (x : float) (v : vec) :
  map abs (map (fun y => (x - y)%float) v)
  = map abs (map (fun y => (y - x)%float) v).
Proof.
  induction v as [| y v IH]; [reflexivity |].
  cbn [map]. rewrite (Binary64.float_abs_sub_swap x y), IH. reflexivity.
Qed.

Lemma scipy_euclidean_sym (u v : vec) :
  scipy.euclidean u v = scipy.euclidean v u.
Proof.
  unfold scipy.euclidean, np.subtract.
  rewrite (Nat.eqb_sym (length v) (length u)).
  destruct (length u =? length v)%nat eqn:Elen.
  - cbn [bind]. apply norm_abs_eq, zip_sub_abs_swap.
  - destruct u as [| x [| x' u]], v as [| y [| y' v]];
      try discriminate Elen; try reflexivity; cbn [bind];
      apply norm_abs_eq;
      first [ apply map_sub_abs_swap
            | symmetry; apply map_sub_abs_swap ].
Qed.

(** C2, as the code has it.  On vectors of equal length the cosine
    distance returns, say [c].  When every coordinate of the difference
    [a - b] is finite the Euclidean distance returns too, say [d], and the
    score computed by [compute_similarity] is the blend of the
    specification, [0.6 * (1 - c) + 0.4 * (1 / (1 + d))].  When the
    difference holds a NaN or an infinity the Euclidean distance raises
    [ValueError] and the score is 0. *)
Theorem compute_similarity_spec_score (a b : vec) :
  length a = length b ->
  exists c : float,
    scipy.cosine a b = Ok c
    /\ (np.all_finite (np.zip_sub a b) = true ->
        exists d : float,
          scipy.euclidean a b = Ok d
          /\ compute_similarity a b = spec_score c d)
    /\ (np.all_finite (np.zip_sub a b) = false ->
        scipy.euclidean a b = Raise ValueError
        /\ compute_similarity a b = 0%float).
Proof.
  intros Hlen.
  assert (Hc : exists c, scipy.cosine a b = Ok c).
  { unfold scipy.cosine. rewrite !dot_self. unfold np.dot.
    rewrite Hlen, Nat.eqb_refl. cbn [bind]. eexists. reflexivity. }
  destruct Hc as [c Hc]. exists c. split; [exact Hc |].
  split; intros Hfin.
  - assert (Hd : scipy.euclidean a b = Ok (blas.nrm2 (np.zip_sub a b))).
    { unfold scipy.euclidean. rewrite (subtract_same_length a b Hlen).
      cbn [bind]. rewrite Hfin. reflexivity. }
    exists (blas.nrm2 (np.zip_sub a b)). split; [exact Hd |].
    exact (compute_similarity_blend a b c _ Hc Hd).
  - assert (Hd : scipy.euclidean a b = Raise ValueError).
    { unfold scipy.euclidean. rewrite (subtract_same_length a b Hlen).
      cbn [bind]. rewrite Hfin. reflexivity. }
    split; [exact Hd |].
    unfold compute_similarity. cbn [cosine euclidean scipy_distance].
    rewrite Hc. cbn [bind]. rewrite Hd. reflexivity.
Qed.

Lemma compute_similarity_spec_score_sample :
  exists c : float,
    scipy.cosine (Sample.fingerprint 0) (Sample.fingerprint 2) = Ok c
    /\ (np.all_finite
          (np.zip_sub (Sample.fingerprint 0) (Sample.fingerprint 2)) = true ->
        exists d : float,
          scipy.euclidean (Sample.fingerprint 0) (Sample.fingerprint 2) = Ok d
          /\ compute_similarity (Sample.fingerprint 0) (Sample.fingerprint 2)
             = spec_score c d)
    /\ (np.all_finite
          (np.zip_sub (Sample.fingerprint 0) (Sample.fingerprint 2)) = false ->
        scipy.euclidean (Sample.fingerprint 0) (Sample.fingerprint 2)
        = Raise ValueError
        /\ compute_similarity (Sample.fingerprint 0) (Sample.fingerprint 2)
           = 0%float).
Proof.
  apply (compute_similarity_spec_score
           (Sample.fingerprint 0) (Sample.fingerprint 2)).
  vm_compute. reflexivity.
Defined.

Lemma compute_similarity_swap (a b : vec) :
  compute_similarity a b = compute_similarity b a.
Proof.
  unfold compute_similarity. cbn [cosine euclidean scipy_distance].
  rewrite (scipy_cosine_sym b a), (scipy_euclidean_sym b a). reflexivity.
Qed.

(** C10.  With SciPy's distances the score of two vectors of equal length
    does not depend on the order of the two arguments.  (On different
    lengths both orders raise inside and give 0.) *)
Theorem compute_similarity_sym (a b : vec) :
  length a = length b ->
  compute_similarity a b = compute_similarity b a.
Proof.
  intros _. apply compute_similarity_swap.
Qed.

Lemma compute_similarity_sym_sample :
  compute_similarity (Sample.fingerprint 0) (Sample.fingerprint 2)
  = compute_similarity (Sample.fingerprint 2) (Sample.fingerprint 0).
Proof.
  apply (compute_similarity_sym (Sample.fingerprint 0) (Sample.fingerprint 2)).
  vm_compute. reflexivity.
Defined.

(** * The store *)

Section StoreFacts.
Context `{SpatialDistance}.

Lemma records_for_app (name : string) (db1 db2 : table) :
  records_for name (db1 ++ db2)
  = (records_for name db1 + records_for name db2)%nat.
Proof.
  unfold records_for. rewrite filter_app, length_app. reflexivity.
Qed.

(** After the DELETE no row is left under the identifier. *)
Lemma records_for_deleted (name : string) (db : table) :
  records_for name (delete_where_filename db name) = 0%nat.
Proof.
  unfold records_for, delete_where_filename.
  induction db as [| r db IH]; [reflexivity |].
  cbn [filter]. destruct (String.eqb (filename r) name) eqn:E; cbn [negb].
  - exact IH.
  - cbn [filter]. rewrite E. exact IH.
Qed.

(** The DELETE adds no row under any identifier. *)
Lemma records_for_delete_le (name other : string) (db : table) :
  (records_for name (delete_where_filename db other)
   <= records_for name db)%nat.
Proof.
  unfold records_for, delete_where_filename.
  induction db as [| r db IH]; [apply le_n |].
  cbn [filter].
  destruct (negb (String.eqb (filename r) other)); cbn [filter];
    destruct (String.eqb (filename r) name); cbn [length]; lia.
Qed.

Lemma delete_where_filename_idem (name : string) (db : table) :
  delete_where_filename (delete_where_filename db name) name
  = delete_where_filename db name.
Proof.
  unfold delete_where_filename.
  induction db as [| r db IH]; [reflexivity |].
  cbn [filter].
  destruct (negb (String.eqb (filename r) name)) eqn:E; [| exact IH].
  cbn [filter]. rewrite E, IH. reflexivity.
Qed.

Lemma store_audio_metadata_unique
    (fs : files) (db : table) (name path ipfs tx_hash : string) :
  unique_filenames db ->
  unique_filenames (store_audio_metadata fs db name path ipfs tx_hash).
Proof.
  intros Hdb other. unfold store_audio_metadata.
  destruct (get_mfcc fs path) as [fp |]; [| apply Hdb].
  rewrite records_for_app.
  unfold records_for at 2. cbn [filter filename].
  destruct (String.eqb name other) eqn:E.
  - apply String.eqb_eq in E. subst other.
    rewrite records_for_deleted. cbn [length]. lia.
  - pose proof (records_for_delete_le other name db) as Hle.
    specialize (Hdb other). cbn [length]. lia.
Qed.

Lemma upload_audio_unique (st : state) (req : upload) :
  unique_filenames (audio_metadata st) ->
  unique_filenames (audio_metadata (snd (upload_audio st req))).
Proof.
  intros Hdb. unfold upload_audio.
  destruct (file req) as [[name payload] |]; [| exact Hdb].
  destruct (75 <=? _)%float; [exact Hdb |].
  destruct (upload_to_ipfs (ipfs_run req)) as [[| a ipfs] |];
    try exact Hdb.
  destruct (register_audio req) as [tx | e]; [| exact Hdb].
  cbn [snd audio_metadata]. apply store_audio_metadata_unique. exact Hdb.
Qed.

Lemma run_unique (calls : list call) : forall st : state,
  unique_filenames (audio_metadata st) ->
  unique_filenames (audio_metadata (run st calls)).
Proof.
  unfold run.
  induction calls as [| c calls IH]; intros st Hst; [exact Hst |].
  cbn [fold_left]. apply IH.
  destruct c as [req | name path ipfs tx_hash]; cbn [step].
  - apply upload_audio_unique. exact Hst.
  - cbn [audio_metadata]. apply store_audio_metadata_unique. exact Hst.
Qed.

(** C8.  Storing is DELETE then INSERT on the identifier: when the file
    has a fingerprint, one call leaves exactly one row under the
    identifier whatever the table held, a second call with the same
    arguments leaves the table as the first did, hence again exactly
    one row; and whatever calls the server has served since the empty
    table, no identifier has more than one row. *)
Theorem store_audio_metadata_upsert
    (fs : files) (db : table) (name path ipfs tx_hash : string)
    (fp : mfcc_text) (fs0 : files) (calls : list call) (other : string) :
  get_mfcc fs path = Some fp ->
  let once := store_audio_metadata fs db name path ipfs tx_hash in
  let twice := store_audio_metadata fs once name path ipfs tx_hash in
  once = delete_where_filename db name
           ++ [ {| filename := name; mfcc := fp;
                   ipfs_hash := ipfs; blockchain_tx := tx_hash |} ]
  /\ records_for name once = 1%nat
  /\ twice = once
  /\ records_for name twice = 1%nat
  /\ (records_for other
        (audio_metadata
           (run {| uploaded_audio := fs0; audio_metadata := [] |} calls))
      <= 1)%nat.
Proof.
  intros Hfp once twice.
  assert (Honce : once = delete_where_filename db name
                           ++ [ {| filename := name; mfcc := fp;
                                   ipfs_hash := ipfs;
                                   blockchain_tx := tx_hash |} ]).
  { unfold once, store_audio_metadata. rewrite Hfp. reflexivity. }
  assert (Hone : records_for name once = 1%nat).
  { rewrite Honce, records_for_app, records_for_deleted.
    unfold records_for. cbn [filter filename].
    rewrite String.eqb_refl. reflexivity. }
  assert (Htwice : twice = once).
  { unfold twice, store_audio_metadata. rewrite Hfp, Honce.
    f_equal. unfold delete_where_filename at 1. rewrite filter_app.
    fold (delete_where_filename (delete_where_filename db name) name).
    rewrite delete_where_filename_idem.
    cbn [filter filename]. rewrite String.eqb_refl. cbn [negb].
    apply app_nil_r. }
  split; [exact Honce |]. split; [exact Hone |].
  split; [exact Htwice |]. split; [rewrite Htwice; exact Hone |].
  apply run_unique. intros other'. cbn [audio_metadata].
  unfold records_for. cbn [filter length]. lia.
Qed.

End StoreFacts.

Lemma store_audio_metadata_upsert_sample :
  records_for "c3_same.wav"
    (store_audio_metadata Sample.folder
       (store_audio_metadata Sample.folder [Sample.far; Sample.same]
          "c3_same.wav" Sample.path "QmNew" "0xabc")
       "c3_same.wav" Sample.path "QmNew" "0xabc") = 1%nat.
Proof.
  apply (store_audio_metadata_upsert
           Sample.folder [Sample.far; Sample.same]
           "c3_same.wav" Sample.path "QmNew" "0xabc"
           (json.dumps (Sample.fingerprint 0))
           [] [CallUpload Sample.request] "c3_same.wav").
  vm_compute. reflexivity.
Defined.

(** * The caller's policy *)

Lemma read_file_filtered (fs : files) (path : string) :
  read_file (filter (fun e => negb (String.eqb (fst e) path)) fs) path = None.
Proof.
  induction fs as [| [p a] fs IH]; [reflexivity |].
  cbn [filter fst]. destruct (String.eqb p path) eqn:E; cbn [negb].
  - exact IH.
  - cbn [read_file]. rewrite E. exact IH.
Qed.

Lemma read_file_saved (fs : files) (path : string) (a : audio) :
  read_file (save_file fs path a) path = Some a.
Proof.
  unfold save_file. cbn [read_file]. rewrite String.eqb_refl. reflexivity.
Qed.

Lemma read_file_removed (fs : files) (path : string) :
  read_file (remove_file fs path) path = None.
Proof. apply read_file_filtered. Qed.

Section PolicyClaims.
Context `{SpatialDistance}.

(** A reported percentage of at least 50 comes from a candidate that has a
    fingerprint. *)
Lemma flagged_has_fingerprint (fs : files) (db : table) (path : string) :
  (50 <=? check_audio_similarity fs db path)%float = true ->
  exists fp, get_mfcc fs path = Some fp.
Proof.
  unfold check_audio_similarity.
  destruct (get_mfcc fs path) as [fp |]; [intros _; exists fp; reflexivity |].
  intros Hx. discriminate Hx.
Qed.

(** The caller's policy on the reported percentage: from 50 up to
    75 the upload goes through and is stored once the content store and
    the ledger have answered; from 75 on it is refused and its file
    removed. *)
Lemma upload_audio_policy
    (st : state) (req : upload) (name : string) (payload : audio) :
  file req = Some (name, payload) ->
  let unique := unique_filename req name in
  let path := file_path unique in
  let fs := save_file (uploaded_audio st) path payload in
  let similarity := check_audio_similarity fs (audio_metadata st) path in
  ((50 <=? similarity)%float = true ->
   (75 <=? similarity)%float = false ->
   forall ipfs tx_hash : string,
     upload_to_ipfs (ipfs_run req) = Some ipfs ->
     ipfs <> EmptyString ->
     register_audio req = Ok tx_hash ->
     exists fp,
       get_mfcc fs path = Some fp
       /\ upload_audio st req
          = (AudioStored ipfs tx_hash,
             {| uploaded_audio := fs;
                audio_metadata :=
                  delete_where_filename (audio_metadata st) unique
                    ++ [ {| filename := unique; mfcc := fp;
                            ipfs_hash := ipfs;
                            blockchain_tx := tx_hash |} ] |})
       /\ status_code (fst (upload_audio st req)) = 200%Z
       /\ read_file fs path = Some payload)
  /\ ((75 <=? similarity)%float = true ->
      upload_audio st req
      = (AudioTooSimilar similarity,
         {| uploaded_audio := remove_file fs path;
            audio_metadata := audio_metadata st |})
      /\ status_code (fst (upload_audio st req)) = 400%Z
      /\ read_file (remove_file fs path) path = None).
Proof.
  intros Hfile unique path fs similarity. split.
  - intros H50 H75 ipfs tx_hash Hipfs Hne Htx.
    destruct (flagged_has_fingerprint fs (audio_metadata st) path H50)
      as [fp Hfp].
    exists fp. split; [exact Hfp |].
    assert (Hrun : upload_audio st req
                   = (AudioStored ipfs tx_hash,
                      {| uploaded_audio := fs;
                         audio_metadata :=
                           delete_where_filename (audio_metadata st) unique
                             ++ [ {| filename := unique; mfcc := fp;
                                     ipfs_hash := ipfs;
                                     blockchain_tx := tx_hash |} ] |})).
    { unfold upload_audio. rewrite Hfile.
      fold unique. fold path. fold fs. fold similarity.
      rewrite H75, Hipfs, Htx.
      destruct ipfs as [| a ipfs]; [congruence |].
      unfold store_audio_metadata. rewrite Hfp. reflexivity. }
    split; [exact Hrun |]. split; [rewrite Hrun; reflexivity |].
    apply read_file_saved.
  - intros H75.
    assert (Hrun : upload_audio st req
                   = (AudioTooSimilar similarity,
                      {| uploaded_audio := remove_file fs path;
                         audio_metadata := audio_metadata st |})).
    { unfold upload_audio. rewrite Hfile.
      fold unique. fold path. fold fs. fold similarity.
      rewrite H75. reflexivity. }
    split; [exact Hrun |]. split; [rewrite Hrun; reflexivity |].
    apply read_file_removed.
Qed.

(** C6.  Two thresholds.  Let [s] be the score of the first row that
    reaches 0.50, so that the detector flags the upload and reports
    [s * 100], at least 50.  If [s] is below 0.75 the caller goes on: once
    the content store and the ledger have answered, the response is 200,
    the file stays in the folder and the record is written to the table.
    If [s] is at least 0.75 the response is 400 with the percentage, the
    table is left as it was and the file is gone from the folder. *)
Theorem upload_audio_two_thresholds
    (st : state) (req : upload) (name : string) (payload : audio)
    (cand : vec) (pre : table) (r : audio_row) (post : table) (s : float) :
  file req = Some (name, payload) ->
  let unique := unique_filename req name in
  let path := file_path unique in
  let fs := save_file (uploaded_audio st) path payload in
  get_mfcc fs path = Some (json.dumps cand) ->
  audio_metadata st = pre ++ r :: post ->
  (forall q, In q pre -> reaches cand q = false) ->
  score_of cand r = Some s ->
  (0.50 <=? s)%float = true ->
  check_audio_similarity fs (audio_metadata st) path = (s * 100)%float
  /\ (50 <=? s * 100)%float = true
  /\ ((s <? 0.75)%float = true ->
      forall ipfs tx_hash : string,
        upload_to_ipfs (ipfs_run req) = Some ipfs ->
        ipfs <> EmptyString ->
        register_audio req = Ok tx_hash ->
        upload_audio st req
        = (AudioStored ipfs tx_hash,
           {| uploaded_audio := fs;
              audio_metadata :=
                delete_where_filename (audio_metadata st) unique
                  ++ [ {| filename := unique; mfcc := json.dumps cand;
                          ipfs_hash := ipfs;
                          blockchain_tx := tx_hash |} ] |})
        /\ status_code (fst (upload_audio st req)) = 200%Z
        /\ read_file fs path = Some payload)
  /\ ((0.75 <=? s)%float = true ->
      upload_audio st req
      = (AudioTooSimilar (s * 100)%float,
         {| uploaded_audio := remove_file fs path;
            audio_metadata := audio_metadata st |})
      /\ status_code (fst (upload_audio st req)) = 400%Z
      /\ read_file (remove_file fs path) path = None).
Proof.
  intros Hfile unique path fs Hcand Hdb Hpre Hs Hle.
  assert (Hsim : check_audio_similarity fs (audio_metadata st) path
                 = (s * 100)%float).
  { unfold check_audio_similarity. rewrite Hcand, Hdb.
    rewrite (scan_skip_prefix cand pre (r :: post) Hpre).
    apply scan_hit_head; assumption. }
  pose proof (Binary64.mul_100_threshold s Hle) as H50.
  destruct (upload_audio_policy st req name payload Hfile) as [Hkeep Hrej].
  fold unique in Hkeep, Hrej. fold path in Hkeep, Hrej.
  fold fs in Hkeep, Hrej. rewrite Hsim in Hkeep, Hrej.
  split; [exact Hsim |]. split; [exact H50 |]. split.
  - intros Hlt ipfs tx_hash Hipfs Hne Htx.
    destruct (Hkeep H50 (Binary64.mul_100_keep s Hle Hlt)
                    ipfs tx_hash Hipfs Hne Htx)
      as (fp & Hfp & Hrun & Hcode & Hread).
    assert (fp = json.dumps cand) by congruence. subst fp.
    split; [exact Hrun |]. split; [exact Hcode | exact Hread].
  - intros Hge. apply Hrej. apply Binary64.mul_100_reject. exact Hge.
Qed.

End PolicyClaims.

(** Against [far; near; same] the upload scores 0.62 on [near]: it is
    flagged at 62 percent and stored, although [same] is in the corpus.
    Against [far; same; near] it scores 1 on [same]: it is reported at 100
    percent and refused. *)
Lemma upload_audio_two_thresholds_sample :
  (check_audio_similarity
     (save_file [] (file_path (unique_filename Sample.request "song.wav"))
                (Ok (Sample.track 0)))
     [Sample.far; Sample.near; Sample.same]
     (file_path (unique_filename Sample.request "song.wav"))
   = (0.62000000000000011 * 100)%float
   /\ status_code (fst (upload_audio Sample.flagged_state Sample.request))
      = 200%Z
   /\ records_for (unique_filename Sample.request "song.wav")
        (audio_metadata (snd (upload_audio Sample.flagged_state
                                           Sample.request))) = 1%nat)
  /\ (fst (upload_audio Sample.rejecting_state Sample.request)
      = AudioTooSimilar (1 * 100)%float
      /\ snd (upload_audio Sample.rejecting_state Sample.request)
         = {| uploaded_audio := [];
              audio_metadata := [Sample.far; Sample.same; Sample.near] |}).
Proof.
  split.
  - destruct (upload_audio_two_thresholds
                Sample.flagged_state Sample.request "song.wav"
                (Ok (Sample.track 0)) (Sample.fingerprint 0)
                [Sample.far] Sample.near [Sample.same]
                0.62000000000000011%float)
      as (Hsim & _ & Hkeep & _).
    + reflexivity.
    + vm_compute. reflexivity.
    + reflexivity.
    + intros q [<- | []]. vm_compute. reflexivity.
    + vm_compute. reflexivity.
    + vm_compute. reflexivity.
    + split; [exact Hsim |].
      destruct (Hkeep ltac:(vm_compute; reflexivity) "QmNew" "0xabc"
                      eq_refl ltac:(discriminate) eq_refl)
        as (Hrun & Hcode & _).
      split; [exact Hcode |]. rewrite Hrun. vm_compute. reflexivity.
  - destruct (upload_audio_two_thresholds
                Sample.rejecting_state Sample.request "song.wav"
                (Ok (Sample.track 0)) (Sample.fingerprint 0)
                [Sample.far] Sample.same [Sample.near] 1%float)
      as (_ & _ & _ & Hrej).
    + reflexivity.
    + vm_compute. reflexivity.
    + reflexivity.
    + intros q [<- | []]. vm_compute. reflexivity.
    + vm_compute. reflexivity.
    + vm_compute. reflexivity.
    + destruct (Hrej ltac:(vm_compute; reflexivity)) as (Hrun & _ & _).
      rewrite Hrun. split; vm_compute; reflexivity.
Defined.

(** * Feature extraction *)

(** C4, as the code has it.  [get_mfcc] has no check for a degenerate
    signal: whenever the audio decodes it returns the flattened normalised
    matrix, and in a channel whose standard deviation is computed as zero
    the division is carried out all the same, so that every coefficient of
    that channel in the fingerprint is NaN or an infinity. *)
Theorem get_mfcc_divides_by_zero_std
    (fs : files) (path : string) (m : matrix) :
  librosa_mfcc fs path = Ok m ->
  get_mfcc fs path = Some (json.dumps (np.flatten (map normalize m)))
  /\ forall row, In row m -> (np.std row =? 0)%float = true ->
       forall y, In y (normalize row) ->
         is_finite y = false /\ In y (np.flatten (map normalize m)).
Proof.
  intros Hm. split; [unfold get_mfcc; rewrite Hm; reflexivity |].
  intros row Hrow Hstd y Hy. split.
  - unfold normalize in Hy. apply in_map_iff in Hy.
    destruct Hy as [x [<- _]].
    apply Binary64.float_div_zero. exact Hstd.
  - unfold np.flatten. apply in_concat. exists (normalize row).
    split; [apply in_map; exact Hrow | exact Hy].
Qed.

Lemma get_mfcc_divides_by_zero_std_sample :
  get_mfcc Sample.silent_folder Sample.path
  = Some (json.dumps (np.flatten (map normalize Sample.silence)))
  /\ forall row, In row Sample.silence -> (np.std row =? 0)%float = true ->
       forall y, In y (normalize row) ->
         is_finite y = false
         /\ In y (np.flatten (map normalize Sample.silence)).
Proof.
  apply (get_mfcc_divides_by_zero_std
           Sample.silent_folder Sample.path Sample.silence).
  vm_compute. reflexivity.
Defined.

(** On two frames of silence every channel has standard deviation 0, and
    [get_mfcc] returns a fingerprint of eighty NaNs instead of failing. *)
Lemma get_mfcc_silence_returns :
  (forall row, In row Sample.silence -> np.std row = 0%float)
  /\ get_mfcc Sample.silent_folder Sample.path
     = Some (json.dumps (repeat nan 80))
  /\ get_mfcc Sample.silent_folder Sample.path <> None.
Proof.
  split; [| split].
  - intros row [<- | Hrow]; [vm_compute; reflexivity |].
    apply repeat_spec in Hrow. subst row. vm_compute. reflexivity.
  - vm_compute. reflexivity.
  - vm_compute. discriminate.
Qed.

(** * A fingerprint against itself *)

Lemma zip_sub_self (a : vec) :
  forallb is_finite a = true ->
  np.zip_sub a a = repeat 0%float (length a).
Proof.
  induction a as [| x a IH]; [reflexivity |].
  cbn [forallb length repeat np.zip_sub].
  rewrite andb_true_iff. intros [Hx Ha].
  rewrite (Binary64.float_sub_self x Hx), (IH Ha). reflexivity.
Qed.

Lemma all_finite_zeros (n : nat) : np.all_finite (repeat 0%float n) = true.
Proof.
  unfold np.all_finite. induction n as [| n IH]; [reflexivity |].
  cbn [repeat forallb]. rewrite IH. reflexivity.
Qed.

(** The norm skips zeros: on a vector of zeros it is 0. *)
Lemma fold_nrm2_step_zeros (n : nat) (st : float * float) :
  fold_left blas.nrm2_step (repeat 0%float n) st = st.
Proof.
  induction n as [| n IH]; [reflexivity |].
  cbn [repeat fold_left]. destruct st as [scale ssq]. exact IH.
Qed.

Lemma nrm2_zeros (n : nat) : blas.nrm2 (repeat 0%float n) = 0%float.
Proof.
  destruct n as [| [| n]]; [reflexivity | reflexivity |].
  change (blas.nrm2 (repeat 0%float (S (S n))))
    with (let '(scale, ssq) :=
            fold_left blas.nrm2_step (repeat 0%float (S (S n)))
                      (0%float, 1%float) in
          (scale * PrimFloat.sqrt ssq)%float).
  rewrite fold_nrm2_step_zeros. reflexivity.
Qed.

Lemma scipy_euclidean_self (a : vec) :
  forallb is_finite a = true -> scipy.euclidean a a = Ok 0%float.
Proof.
  intros Ha. unfold scipy.euclidean.
  rewrite (subtract_same_length a a eq_refl). cbn [bind].
  rewrite (zip_sub_self a Ha), all_finite_zeros, nrm2_zeros. reflexivity.
Qed.

Lemma scipy_cosine_self (a : vec) :
  (0x1p-500 <=? self_dot a)%float = true ->
  (self_dot a <=? 0x1p+500)%float = true ->
  scipy.cosine a a = Ok 0%float.
Proof.
  intros Hlo Hhi. unfold scipy.cosine. rewrite dot_self. cbn [bind].
  fold (self_dot a).
  rewrite (Binary64.float_sqrt_sqr _ Hlo Hhi).
  rewrite (Binary64.float_div_self _ Hlo Hhi). reflexivity.
Qed.




(** * NaN in a fingerprint *)

Module Binary64Nan.

Lemma nan_unique (x : float) : is_nan x = true -> x = nan.
Proof.
  intros Hx. apply Prim2SF_inj.
  rewrite (Binary64.is_nan_spec x Hx). reflexivity.
Qed.

Lemma mul_nan_l (y : float) : (nan * y = nan)%float.
Proof. apply Prim2SF_inj. rewrite mul_spec. reflexivity. Qed.

Lemma mul_nan_r (x : float) : (x * nan = nan)%float.
Proof. rewrite Binary64.float_mul_comm. apply mul_nan_l. Qed.

Lemma add_nan_l (y : float) : (nan + y = nan)%float.
Proof. apply Prim2SF_inj. rewrite add_spec. reflexivity. Qed.

Lemma add_nan_r (x : float) : (x + nan = nan)%float.
Proof.
  apply Prim2SF_inj. rewrite add_spec.
  change (Prim2SF nan) with S754_nan.
  destruct (Prim2SF x); reflexivity.
Qed.

Lemma div_nan_l (y : float) : (nan / y = nan)%float.
Proof. apply Prim2SF_inj. rewrite div_spec. reflexivity. Qed.

Lemma sub_nan_l (y : float) : (nan - y = nan)%float.
Proof. apply Prim2SF_inj. rewrite sub_spec. reflexivity. Qed.

Lemma sub_nan_r (x : float) : (x - nan = nan)%float.
Proof.
  apply Prim2SF_inj. rewrite sub_spec.
  change (Prim2SF nan) with S754_nan.
  destruct (Prim2SF x); reflexivity.
Qed.

(** A sum that meets a NaN is NaN. *)
Lemma sum_from_nan (l : vec) : fold_left PrimFloat.add l nan = nan.
Proof.
  induction l as [| x l IH]; [reflexivity |].
  cbn [fold_left]. rewrite add_nan_l. exact IH.
Qed.

Lemma sum_has_nan (l : vec) : has_nan l = true ->
  forall acc, fold_left PrimFloat.add l acc = nan.
Proof.
  unfold has_nan.
  induction l as [| x l IH]; [discriminate |].
  cbn [existsb fold_left]. intros Hx acc.
  destruct (is_nan x) eqn:Ex.
  - rewrite (nan_unique x Ex), add_nan_r. apply sum_from_nan.
  - apply IH. exact Hx.
Qed.

Lemma zip_mul_has_nan_l (u : vec) : forall v,
  length u = length v -> has_nan u = true ->
  has_nan (np.zip_mul u v) = true.
Proof.
  unfold has_nan.
  induction u as [| x u IH]; intros [| y v] Hlen Hu;
    try discriminate.
  cbn [np.zip_mul existsb] in *.
  destruct (is_nan x) eqn:Ex.
  - rewrite (nan_unique x Ex), mul_nan_l. reflexivity.
  - rewrite (IH v); [apply orb_true_r | | exact Hu].
    cbn [length] in Hlen. congruence.
Qed.

Lemma zip_mul_has_nan_r (u v : vec) :
  length u = length v -> has_nan v = true ->
  has_nan (np.zip_mul u v) = true.
Proof.
  intros Hlen Hv. rewrite zip_mul_comm.
  apply zip_mul_has_nan_l; [symmetry; exact Hlen | exact Hv].
Qed.

(** A NaN on either side leaves a NaN in the difference. *)
Lemma zip_sub_has_nan (u : vec) : forall v,
  length u = length v -> has_nan u || has_nan v = true ->
  np.all_finite (np.zip_sub u v) = false.
Proof.
  unfold has_nan, np.all_finite.
  induction u as [| x u IH]; intros [| y v] Hlen Hnan;
    try discriminate.
  cbn [np.zip_sub existsb forallb] in *.
  destruct (is_nan x) eqn:Ex.
  { rewrite (nan_unique x Ex), sub_nan_l. reflexivity. }
  destruct (is_nan y) eqn:Ey.
  { rewrite (nan_unique y Ey), sub_nan_r. reflexivity. }
  rewrite (IH v); [apply andb_false_r | | exact Hnan].
  cbn [length] in Hlen. congruence.
Qed.

End Binary64Nan.

(** With a NaN on either side and equal lengths the cosine distance is
    NaN and the Euclidean distance refuses its argument. *)
Lemma scipy_cosine_has_nan (a b : vec) :
  length a = length b -> has_nan a || has_nan b = true ->
  scipy.cosine a b = Ok nan.
Proof.
  intros Hlen Hnan.
  unfold scipy.cosine. rewrite !dot_self. unfold np.dot.
  rewrite Hlen, Nat.eqb_refl. cbn [bind].
  assert (Huv : np.sum (np.zip_mul a b) = nan).
  { apply Binary64Nan.sum_has_nan.
    apply orb_true_iff in Hnan. destruct Hnan as [Ha | Hb].
    - apply Binary64Nan.zip_mul_has_nan_l; assumption.
    - apply Binary64Nan.zip_mul_has_nan_r; assumption. }
  rewrite Huv, Binary64Nan.div_nan_l. reflexivity.
Qed.

Lemma scipy_euclidean_has_nan (a b : vec) :
  length a = length b -> has_nan a || has_nan b = true ->
  scipy.euclidean a b = Raise ValueError.
Proof.
  intros Hlen Hnan. unfold scipy.euclidean.
  rewrite (subtract_same_length a b Hlen). cbn [bind].
  rewrite (Binary64Nan.zip_sub_has_nan a b Hlen Hnan). reflexivity.
Qed.

(** So the score of such a pair is the 0 of the [except] clause. *)
Lemma compute_similarity_has_nan (a b : vec) :
  has_nan a || has_nan b = true ->
  compute_similarity a b = 0%float.
Proof.
  intros Hnan.
  unfold compute_similarity. cbn [cosine euclidean scipy_distance].
  destruct (length a =? length b)%nat eqn:Elen.
  - apply Nat.eqb_eq in Elen.
    rewrite (scipy_cosine_has_nan a b Elen Hnan). cbn [bind].
    rewrite (scipy_euclidean_has_nan a b Elen Hnan). reflexivity.
  - unfold scipy.cosine, np.dot. rewrite Elen. reflexivity.
Qed.

(** With a NaN for the cosine distance the blend is NaN, whatever the
    Euclidean distance. *)
Lemma spec_score_nan (d : float) : spec_score nan d = nan.
Proof.
  unfold spec_score. cbv zeta.
  change (0.6 * (1 - nan))%float with nan.
  apply Binary64Nan.add_nan_l.
Qed.

(** The score is not always the blend of the two distances.  The
    fingerprint that extraction returns for two frames of silence holds
    NaN throughout: against itself the Euclidean distance raises and the
    score is 0, where the blend is NaN whatever distance is put in.  The
    same happens on two finite vectors of equal length whose difference
    overflows. *)
Lemma compute_similarity_euclidean_raises :
  (let a := fingerprint_of Sample.silence in
   length a = length a
   /\ scipy.cosine a a = Ok nan
   /\ scipy.euclidean a a = Raise ValueError
   /\ compute_similarity a a = 0%float
   /\ forall d, compute_similarity a a <> spec_score nan d)
  /\ (let a := [1.5e308; 1]%float in
      let b := [-1.5e308; 1]%float in
      length a = length b
      /\ np.all_finite a = true /\ np.all_finite b = true
      /\ scipy.cosine a b = Ok nan
      /\ scipy.euclidean a b = Raise ValueError
      /\ compute_similarity a b = 0%float
      /\ forall d, compute_similarity a b <> spec_score nan d).
Proof.
  assert (Hne : forall d, 0%float <> spec_score nan d).
  { intros d Hx. rewrite spec_score_nan in Hx.
    apply (f_equal is_nan) in Hx. vm_compute in Hx. discriminate Hx. }
  split; cbv zeta.
  - assert (Hs : compute_similarity (fingerprint_of Sample.silence)
                                    (fingerprint_of Sample.silence)
                 = 0%float) by (vm_compute; reflexivity).
    repeat split; try (vm_compute; reflexivity).
    intros d. rewrite Hs. apply Hne.
  - assert (Hs : compute_similarity [1.5e308; 1]%float [-1.5e308; 1]%float
                 = 0%float) by (vm_compute; reflexivity).
    repeat split; try (vm_compute; reflexivity).
    intros d. rewrite Hs. apply Hne.
Qed.

(** * Further properties of the route and the store *)

Lemma normalize_length (row : vec) : length (normalize row) = length row.
Proof. unfold normalize. apply length_map. Qed.

Lemma fingerprint_of_length (n : nat) (m : matrix) :
  frames n m -> length (fingerprint_of m) = (length m * n)%nat.
Proof.
  unfold frames, fingerprint_of, np.flatten.
  induction 1 as [| row m Hrow _ IH]; [reflexivity |].
  cbn [map concat length]. rewrite length_app, normalize_length, IH, Hrow.
  reflexivity.
Qed.

Lemma get_mfcc_saved (fs : files) (path : string) (m : matrix) :
  get_mfcc (save_file fs path (Ok m)) path
  = Some (json.dumps (fingerprint_of m)).
Proof.
  unfold get_mfcc, librosa_mfcc. rewrite read_file_saved. reflexivity.
Qed.

Lemma get_mfcc_saved_undecodable (fs : files) (path : string) (e : exn) :
  get_mfcc (save_file fs path (Raise e)) path = None.
Proof.
  unfold get_mfcc, librosa_mfcc. rewrite read_file_saved. reflexivity.
Qed.

Lemma read_file_filter_other (fs : files) (path other : string) :
  other <> path ->
  read_file (filter (fun e => negb (String.eqb (fst e) path)) fs) other
  = read_file fs other.
Proof.
  intros Hne. induction fs as [| [p a] fs IH]; [reflexivity |].
  cbn [filter fst read_file].
  destruct (String.eqb p path) eqn:Ep; cbn [negb].
  - apply String.eqb_eq in Ep. subst p.
    assert (Hpo : String.eqb path other = false)
      by (apply String.eqb_neq; congruence).
    rewrite Hpo. exact IH.
  - cbn [read_file]. rewrite IH. reflexivity.
Qed.

Lemma read_file_saved_other (fs : files) (path other : string) (a : audio) :
  other <> path -> read_file (save_file fs path a) other = read_file fs other.
Proof.
  intros Hne. unfold save_file. cbn [read_file].
  assert (Hpo : String.eqb path other = false)
    by (apply String.eqb_neq; congruence).
  rewrite Hpo. apply read_file_filter_other. exact Hne.
Qed.

Lemma In_delete_where_filename (db : table) (name : string) (r : audio_row) :
  In r (delete_where_filename db name) -> In r db.
Proof. unfold delete_where_filename. intros Hr. apply filter_In in Hr. tauto. Qed.

Section RouteFacts.
Context `{SpatialDistance}.

(** A row that does not reach the threshold can be taken out of the
    corpus. *)
Lemma scan_skip_row (cand : vec) (pre : table) (r : audio_row) (post : table) :
  reaches cand r = false ->
  scan (json.dumps cand) (select_filename_mfcc (pre ++ r :: post))
  = scan (json.dumps cand) (select_filename_mfcc (pre ++ post)).
Proof.
  intros Hmiss.
  induction pre as [| q pre IH]; cbn [app select_filename_mfcc map scan].
  - rewrite (scan_step_miss cand r Hmiss). reflexivity.
  - destruct (scan_step (json.dumps cand) (mfcc q)); [reflexivity |].
    exact IH.
Qed.

(** X1.  Only a 200 writes to the table: whenever [upload_audio] answers
    anything else (no file, too similar, content store or ledger
    failure), the table is left exactly as it was. *)
Theorem upload_audio_writes_only_on_200 (st : state) (req : upload) :
  status_code (fst (upload_audio st req)) <> 200%Z ->
  audio_metadata (snd (upload_audio st req)) = audio_metadata st.
Proof.
  unfold upload_audio.
  destruct (file req) as [[name payload] |]; [| reflexivity].
  destruct (75 <=? _)%float; [reflexivity |].
  destruct (upload_to_ipfs (ipfs_run req)) as [[| c ipfs] |];
    try reflexivity.
  destruct (register_audio req) as [tx | e]; [| reflexivity].
  cbn [fst status_code]. intros Hcode. exfalso. apply Hcode. reflexivity.
Qed.

(** X2.  The folder after a request that carries a file: the upload is
    removed only when it is refused as too similar; after every other
    answer, the two 500s included, it is still there; and no other path
    of the folder is touched. *)
Theorem upload_audio_folder
    (st : state) (req : upload) (name : string) (payload : audio) :
  file req = Some (name, payload) ->
  let path := file_path (unique_filename req name) in
  let after := uploaded_audio (snd (upload_audio st req)) in
  read_file after path
  = match fst (upload_audio st req) with
    | AudioTooSimilar _ => None
    | _ => Some payload
    end
  /\ forall other, other <> path ->
       read_file after other = read_file (uploaded_audio st) other.
Proof.
  intros Hfile path after. subst after. unfold upload_audio.
  rewrite Hfile. fold path.
  destruct (75 <=? _)%float.
  - cbn [fst snd uploaded_audio]. split; [apply read_file_removed |].
    intros other Hne. unfold remove_file.
    rewrite read_file_filter_other by exact Hne.
    apply read_file_saved_other. exact Hne.
  - destruct (upload_to_ipfs (ipfs_run req)) as [[| c ipfs] |];
      [ | destruct (register_audio req) as [tx | e] | ];
      cbn [fst snd uploaded_audio];
      (split; [apply read_file_saved
              | intros other Hne; apply read_file_saved_other; exact Hne]).
Qed.

(** X3.  A payload that cannot be decoded is not stopped: extraction
    fails, the detector reports 0, the content store and the ledger are
    used, and the answer is 200, while [store_audio_metadata] returns
    without writing a row. *)
Theorem upload_audio_undecodable
    (st : state) (req : upload) (name : string) (e : exn)
    (ipfs tx_hash : string) :
  file req = Some (name, Raise e) ->
  upload_to_ipfs (ipfs_run req) = Some ipfs ->
  ipfs <> EmptyString ->
  register_audio req = Ok tx_hash ->
  let path := file_path (unique_filename req name) in
  let fs := save_file (uploaded_audio st) path (Raise e) in
  check_audio_similarity fs (audio_metadata st) path = 0%float
  /\ upload_audio st req
     = (AudioStored ipfs tx_hash,
        {| uploaded_audio := fs; audio_metadata := audio_metadata st |}).
Proof.
  intros Hfile Hipfs Hne Htx path fs.
  assert (Hnone : get_mfcc fs path = None)
    by apply get_mfcc_saved_undecodable.
  assert (Hzero : check_audio_similarity fs (audio_metadata st) path
                  = 0%float).
  { unfold check_audio_similarity. rewrite Hnone. reflexivity. }
  split; [exact Hzero |].
  unfold upload_audio. rewrite Hfile. fold path. fold fs.
  rewrite Hzero.
  change (75 <=? 0)%float with false. cbv iota.
  rewrite Hipfs, Htx.
  destruct ipfs as [| c ipfs]; [congruence |].
  unfold store_audio_metadata. rewrite Hnone. reflexivity.
Qed.

(** X4.  The scan of two corpora put end to end: a verdict reached on the
    first part stands whatever is appended; when the first part gives 0
    the result is the one of the second part. *)
Theorem check_audio_similarity_app
    (fs : files) (db1 db2 : table) (path : string) :
  (check_audio_similarity fs db1 path <> 0%float ->
   check_audio_similarity fs (db1 ++ db2) path
   = check_audio_similarity fs db1 path)
  /\ (check_audio_similarity fs db1 path = 0%float ->
      check_audio_similarity fs (db1 ++ db2) path
      = check_audio_similarity fs db2 path).
Proof.
  unfold check_audio_similarity.
  destruct (get_mfcc_shape fs path) as [-> | [cand ->]].
  - split; [intros Hx; exfalso; apply Hx; reflexivity | reflexivity].
  - destruct (scan_cases cand db1)
      as [[Hall H0] | (pre & r & post & s & -> & Hpre & Hs & Hle & Hscan)].
    + rewrite H0, (scan_skip_prefix cand db1 db2 Hall).
      split; [intros Hx; exfalso; apply Hx; reflexivity | reflexivity].
    + rewrite Hscan, <- app_assoc. cbn [app].
      rewrite (scan_skip_prefix cand pre (r :: post ++ db2) Hpre).
      rewrite (scan_hit_head cand r (post ++ db2) s Hs Hle).
      split; [reflexivity |].
      intros Hzero. exfalso. exact (percentage_nonzero s Hle Hzero).
Qed.

(** X9.  [store_audio_metadata] touches the rows of its own identifier
    only: the rows stored under any other identifier are the same, in the
    same order, whether extraction succeeds or not; and when extraction
    fails nothing is deleted at all. *)
Theorem store_audio_metadata_others
    (fs : files) (db : table) (name path ipfs tx_hash other : string) :
  other <> name ->
  filter (fun r => String.eqb (filename r) other)
         (store_audio_metadata fs db name path ipfs tx_hash)
  = filter (fun r => String.eqb (filename r) other) db
  /\ (get_mfcc fs path = None ->
      store_audio_metadata fs db name path ipfs tx_hash = db).
Proof.
  intros Hne. unfold store_audio_metadata.
  destruct (get_mfcc fs path) as [fp |]; [| split; reflexivity].
  split; [| discriminate].
  rewrite filter_app. cbn [filter filename].
  assert (Hno : String.eqb name other = false)
    by (apply String.eqb_neq; congruence).
  rewrite Hno, app_nil_r. unfold delete_where_filename.
  induction db as [| r db IH]; [reflexivity |].
  cbn [filter].
  destruct (String.eqb (filename r) name) eqn:En; cbn [negb].
  - apply String.eqb_eq in En.
    assert (Hro : String.eqb (filename r) other = false)
      by (apply String.eqb_neq; congruence).
    rewrite Hro. exact IH.
  - cbn [filter]. rewrite IH. reflexivity.
Qed.

Lemma store_audio_metadata_decodable
    (fs : files) (db : table) (name path ipfs tx_hash : string) :
  decodable db ->
  decodable (store_audio_metadata fs db name path ipfs tx_hash).
Proof.
  intros Hdb r. unfold store_audio_metadata, get_mfcc.
  destruct (librosa_mfcc fs path) as [m | e]; [| apply Hdb].
  intros Hr. apply in_app_or in Hr. destruct Hr as [Hr | [<- | []]].
  - apply Hdb. exact (In_delete_where_filename db name r Hr).
  - exists m. reflexivity.
Qed.

Lemma upload_audio_decodable (st : state) (req : upload) :
  decodable (audio_metadata st) ->
  decodable (audio_metadata (snd (upload_audio st req))).
Proof.
  intros Hdb. unfold upload_audio.
  destruct (file req) as [[name payload] |]; [| exact Hdb].
  destruct (75 <=? _)%float; [exact Hdb |].
  destruct (upload_to_ipfs (ipfs_run req)) as [[| c ipfs] |];
    try exact Hdb.
  destruct (register_audio req) as [tx | e]; [| exact Hdb].
  cbn [snd audio_metadata]. apply store_audio_metadata_decodable. exact Hdb.
Qed.

(** X10.  What the server writes it can read back: after any calls served
    from the empty table, the text of every row is the dump of a
    normalised, flattened matrix, so [json.loads] returns on it and the
    scan never takes the [except] branch for an undecodable row. *)
Theorem stored_fingerprints_decode
    (fs0 : files) (calls : list call) (r : audio_row) :
  In r (audio_metadata
          (run {| uploaded_audio := fs0; audio_metadata := [] |} calls)) ->
  exists m, mfcc r = json.dumps (fingerprint_of m)
            /\ json.loads (mfcc r) = Ok (fingerprint_of m).
Proof.
  assert (Hinv : forall calls st, decodable (audio_metadata st) ->
                   decodable (audio_metadata (run st calls))).
  { unfold run. clear calls.
    induction calls as [| c calls IH]; intros st Hst; [exact Hst |].
    cbn [fold_left]. apply IH.
    destruct c as [req | name path ipfs tx_hash]; cbn [step].
    - apply upload_audio_decodable. exact Hst.
    - cbn [audio_metadata]. apply store_audio_metadata_decodable.
      exact Hst. }
  intros Hr.
  destruct (Hinv calls {| uploaded_audio := fs0; audio_metadata := [] |}
              ltac:(intros q []) r Hr) as [m Hm].
  exists m. split; [exact Hm | rewrite Hm; reflexivity].
Qed.

Lemma upload_audio_referenced (st : state) (req : upload) :
  referenced (audio_metadata st) ->
  referenced (audio_metadata (snd (upload_audio st req))).
Proof.
  intros Hdb. unfold upload_audio.
  destruct (file req) as [[name payload] |]; [| exact Hdb].
  destruct (75 <=? _)%float; [exact Hdb |].
  destruct (upload_to_ipfs (ipfs_run req)) as [[| c ipfs] |];
    try exact Hdb.
  destruct (register_audio req) as [tx | e]; [| exact Hdb].
  cbn [snd audio_metadata]. unfold store_audio_metadata.
  destruct (get_mfcc _ _) as [fp |]; [| exact Hdb].
  intros r Hr. apply in_app_or in Hr. destruct Hr as [Hr | [<- | []]].
  - apply Hdb. exact (In_delete_where_filename _ _ r Hr).
  - cbn [ipfs_hash]. discriminate.
Qed.

(** X11.  No record without a content reference: after any sequence of
    requests to [/upload-audio] served from the empty table, every row has
    a non-empty [ipfs_hash]; an upload whose IPFS run failed or printed
    nothing never reaches the table. *)
Theorem stored_rows_have_ipfs_hash
    (fs0 : files) (calls : list call) (r : audio_row) :
  Forall is_upload calls ->
  In r (audio_metadata
          (run {| uploaded_audio := fs0; audio_metadata := [] |} calls)) ->
  ipfs_hash r <> EmptyString.
Proof.
  assert (Hinv : forall calls st, Forall is_upload calls ->
                   referenced (audio_metadata st) ->
                   referenced (audio_metadata (run st calls))).
  { unfold run. clear calls.
    induction calls as [| c calls IH]; intros st Hup Hst; [exact Hst |].
    inversion Hup as [| c' calls' Hc Hcalls]; subst.
    cbn [fold_left]. apply IH; [exact Hcalls |].
    destruct c as [req | name path ipfs tx_hash]; [| destruct Hc].
    cbn [step]. apply upload_audio_referenced. exact Hst. }
  intros Hup Hr.
  exact (Hinv calls {| uploaded_audio := fs0; audio_metadata := [] |}
           Hup ltac:(intros q []) r Hr).
Qed.

End RouteFacts.

(** * Further properties of the scorer *)

Lemma compute_similarity_length_mismatch (a b : vec) :
  length a <> length b -> compute_similarity a b = 0%float.
Proof.
  intros Hne. unfold compute_similarity.
  cbn [cosine euclidean scipy_distance]. unfold scipy.cosine, np.dot.
  assert (Hlen : (length a =? length b)%nat = false)
    by (apply Nat.eqb_neq; exact Hne).
  rewrite Hlen. reflexivity.
Qed.

Lemma has_nan_miss (a b : vec) :
  has_nan a || has_nan b = true ->
  (0.50 <=? compute_similarity a b)%float = false.
Proof.
  intros Hnan. rewrite (compute_similarity_has_nan a b Hnan). reflexivity.
Qed.

(** X8.  A NaN coefficient on either side makes a distance raise: on
    equal lengths the Euclidean distance, which refuses the NaN in the
    difference, on different lengths the cosine distance.  The score is
    the 0 of the [except] clause, which does not reach the match
    threshold. *)
Theorem compute_similarity_nan_never_matches (a b : vec) :
  has_nan a || has_nan b = true ->
  (length a = length b -> scipy.euclidean a b = Raise ValueError)
  /\ (length a <> length b -> scipy.cosine a b = Raise ValueError)
  /\ compute_similarity a b = 0%float
  /\ (0.50 <=? compute_similarity a b)%float = false.
Proof.
  intros Hnan.
  split; [intros Hlen; exact (scipy_euclidean_has_nan a b Hlen Hnan) |].
  split; [| split;
            [exact (compute_similarity_has_nan a b Hnan)
            | exact (has_nan_miss a b Hnan)]].
  intros Hne. unfold scipy.cosine, np.dot.
  assert (Hlen : (length a =? length b)%nat = false)
    by (apply Nat.eqb_neq; exact Hne).
  rewrite Hlen. reflexivity.
Qed.

Lemma compute_similarity_nan_never_matches_sample :
  (length (fingerprint_of Sample.silence) = length (Sample.fingerprint 0) ->
   scipy.euclidean (fingerprint_of Sample.silence) (Sample.fingerprint 0)
   = Raise ValueError)
  /\ (length (fingerprint_of Sample.silence) <> length (Sample.fingerprint 0) ->
      scipy.cosine (fingerprint_of Sample.silence) (Sample.fingerprint 0)
      = Raise ValueError)
  /\ compute_similarity (fingerprint_of Sample.silence) (Sample.fingerprint 0)
     = 0%float
  /\ (0.50 <=? compute_similarity (fingerprint_of Sample.silence)
                 (Sample.fingerprint 0))%float = false.
Proof.
  apply (compute_similarity_nan_never_matches
           (fingerprint_of Sample.silence) (Sample.fingerprint 0)).
  vm_compute. reflexivity.
Defined.

(** X7.  An upload whose fingerprint, as [get_mfcc] returns it for the
    saved file, contains a NaN is never refused as too similar: against
    every table the detector reports 0, even when the very same
    fingerprint is already stored, and the route does not answer
    "too similar". *)
Theorem upload_audio_nan_fingerprint
    (st : state) (req : upload) (name : string) (payload : audio)
    (cand : vec) :
  file req = Some (name, payload) ->
  get_mfcc (save_file (uploaded_audio st)
                      (file_path (unique_filename req name)) payload)
           (file_path (unique_filename req name))
  = Some (json.dumps cand) ->
  has_nan cand = true ->
  check_audio_similarity
    (save_file (uploaded_audio st)
               (file_path (unique_filename req name)) payload)
    (audio_metadata st)
    (file_path (unique_filename req name)) = 0%float
  /\ forall similarity,
       fst (upload_audio st req) <> AudioTooSimilar similarity.
Proof.
  intros Hfile.
  set (path := file_path (unique_filename req name)).
  set (fs := save_file (uploaded_audio st) path payload).
  intros Hmfcc Hnan.
  assert (Hzero : check_audio_similarity fs (audio_metadata st) path
                  = 0%float).
  { unfold check_audio_similarity. rewrite Hmfcc.
    destruct (scan_cases cand (audio_metadata st))
      as [[_ H0] | (pre & r & post & s & _ & _ & Hs & Hle & _)];
      [exact H0 | exfalso].
    unfold score_of in Hs.
    destruct (json.loads (mfcc r)) as [stored | e]; [| discriminate].
    injection Hs as <-.
    rewrite (has_nan_miss cand stored) in Hle;
      [discriminate | rewrite Hnan; reflexivity]. }
  split; [exact Hzero |].
  intros similarity. unfold upload_audio. rewrite Hfile.
  fold path. fold fs. rewrite Hzero.
  change (75 <=? 0)%float with false. cbv iota.
  destruct (upload_to_ipfs (ipfs_run req)) as [[| c ipfs] |];
    try discriminate.
  destruct (register_audio req); discriminate.
Qed.

(** Two frames of silence, uploaded to a table that already holds the
    fingerprint of the same silence.  (Both frames of a channel read the
    same, so the channel minus its mean is 0 over a deviation of 0.) *)
Lemma upload_audio_nan_fingerprint_sample :
  let st := {| uploaded_audio := [];
               audio_metadata :=
                 [ {| filename := "9c1e_silence.wav";
                      mfcc := json.dumps (fingerprint_of Sample.silence);
                      ipfs_hash := "QmSilence";
                      blockchain_tx := "0xsilence" |} ] |} in
  let req := {| file := Some ("silence.wav", Ok Sample.silence);
                uuid4_hex := "77aa";
                ipfs_run := Ok (0%Z, "QmAgain");
                register_audio := Ok "0xagain" |} in
  check_audio_similarity
    (save_file [] (file_path (unique_filename req "silence.wav"))
               (Ok Sample.silence))
    (audio_metadata st)
    (file_path (unique_filename req "silence.wav")) = 0%float
  /\ forall similarity,
       fst (upload_audio st req) <> AudioTooSimilar similarity.
Proof.
  intros st req.
  apply (upload_audio_nan_fingerprint st req "silence.wav"
           (Ok Sample.silence) (fingerprint_of Sample.silence)).
  - reflexivity.
  - vm_compute. reflexivity.
  - vm_compute. reflexivity.
Defined.

(** X6.  Recordings of different duration are never compared: the
    fingerprint of a matrix has channels times frames coefficients, so two
    matrices with the same channels and different frame counts give
    fingerprints of different lengths, the distance raises, the score is
    replaced by 0 and the row is not a match. *)
Theorem different_durations_never_match (m1 m2 : matrix) (n1 n2 : nat) :
  frames n1 m1 -> frames n2 m2 ->
  length m1 = length m2 -> m1 <> [] -> n1 <> n2 ->
  length (fingerprint_of m1) = (length m1 * n1)%nat
  /\ length (fingerprint_of m2) = (length m2 * n2)%nat
  /\ compute_similarity (fingerprint_of m1) (fingerprint_of m2) = 0%float
  /\ forall r, mfcc r = json.dumps (fingerprint_of m2) ->
       reaches (fingerprint_of m1) r = false.
Proof.
  intros Hf1 Hf2 Hch Hne Hn.
  pose proof (fingerprint_of_length n1 m1 Hf1) as Hl1.
  pose proof (fingerprint_of_length n2 m2 Hf2) as Hl2.
  assert (Hlen : length (fingerprint_of m1) <> length (fingerprint_of m2)).
  { rewrite Hl1, Hl2, <- Hch. intros Heq.
    apply Nat.mul_cancel_l in Heq; [exact (Hn Heq) |].
    destruct m1; [congruence | discriminate]. }
  pose proof (compute_similarity_length_mismatch _ _ Hlen) as Hzero.
  split; [exact Hl1 |]. split; [exact Hl2 |]. split; [exact Hzero |].
  intros r Hr. unfold reaches, score_of. rewrite Hr. cbn [json.loads json.dumps].
  rewrite Hzero. reflexivity.
Qed.

Lemma different_durations_never_match_sample :
  length (fingerprint_of (Sample.track 0)) = (length (Sample.track 0) * 2)%nat
  /\ length (fingerprint_of (repeat [1; 2; 3]%float 40))
     = (length (repeat [1; 2; 3]%float 40) * 3)%nat
  /\ compute_similarity (fingerprint_of (Sample.track 0))
       (fingerprint_of (repeat [1; 2; 3]%float 40)) = 0%float
  /\ forall r, mfcc r = json.dumps (fingerprint_of (repeat [1; 2; 3]%float 40)) ->
       reaches (fingerprint_of (Sample.track 0)) r = false.
Proof.
  apply (different_durations_never_match
           (Sample.track 0) (repeat [1; 2; 3]%float 40) 2 3).
  - unfold frames. vm_compute. repeat constructor.
  - unfold frames. vm_compute. repeat constructor.
  - reflexivity.
  - discriminate.
  - discriminate.
Defined.

(** X5.  Store, then detect.  When no row of the table reaches the
    threshold against a decodable upload and its fingerprint is moderate,
    the upload is stored; the same payload sent again, under whatever name
    and uuid, then scores exactly 1 against its own record and is refused
    with 100 percent, and the table stays as the first upload left it. *)
Theorem reupload_is_refused
    (st : state) (req1 req2 : upload) (name1 name2 : string) (m : matrix)
    (ipfs tx_hash : string) :
  file req1 = Some (name1, Ok m) ->
  file req2 = Some (name2, Ok m) ->
  moderate (fingerprint_of m) = true ->
  (forall r, In r (audio_metadata st) -> reaches (fingerprint_of m) r = false) ->
  upload_to_ipfs (ipfs_run req1) = Some ipfs ->
  ipfs <> EmptyString ->
  register_audio req1 = Ok tx_hash ->
  let st1 := snd (upload_audio st req1) in
  fst (upload_audio st req1) = AudioStored ipfs tx_hash
  /\ fst (upload_audio st1 req2) = AudioTooSimilar 100%float
  /\ audio_metadata (snd (upload_audio st1 req2)) = audio_metadata st1.
Proof.
  intros Hfile1 Hfile2 Hmod Hall Hipfs Hne Htx st1.
  set (cand := fingerprint_of m) in *.
  set (path1 := file_path (unique_filename req1 name1)).
  set (fs1 := save_file (uploaded_audio st) path1 (Ok m)).
  set (row1 := {| filename := unique_filename req1 name1;
                  mfcc := json.dumps cand;
                  ipfs_hash := ipfs; blockchain_tx := tx_hash |}).
  (* the first upload *)
  assert (Hzero : check_audio_similarity fs1 (audio_metadata st) path1
                  = 0%float).
  { unfold check_audio_similarity, fs1. rewrite get_mfcc_saved. fold cand.
    rewrite <- (app_nil_r (audio_metadata st)).
    rewrite (scan_skip_prefix cand (audio_metadata st) [] Hall).
    reflexivity. }
  assert (Hrun1 : upload_audio st req1
                  = (AudioStored ipfs tx_hash,
                     {| uploaded_audio := fs1;
                        audio_metadata :=
                          delete_where_filename (audio_metadata st)
                            (unique_filename req1 name1) ++ [row1] |})).
  { unfold upload_audio. rewrite Hfile1.
    fold path1. fold fs1. rewrite Hzero.
    change (75 <=? 0)%float with false. cbv iota.
    rewrite Hipfs, Htx.
    destruct ipfs as [| c ipfs]; [congruence |].
    unfold store_audio_metadata, fs1. rewrite get_mfcc_saved.
    reflexivity. }
  split; [rewrite Hrun1; reflexivity |].
  (* the second upload *)
  assert (Hst1 : st1 = {| uploaded_audio := fs1;
                          audio_metadata :=
                            delete_where_filename (audio_metadata st)
                              (unique_filename req1 name1) ++ [row1] |})
    by (unfold st1; rewrite Hrun1; reflexivity).
  set (path2 := file_path (unique_filename req2 name2)).
  set (fs2 := save_file (uploaded_audio st1) path2 (Ok m)).
  assert (Hself : score_of cand row1 = Some 1%float).
  { unfold score_of, compute_similarity.
    cbn [mfcc row1 json.loads json.dumps cosine euclidean scipy_distance].
    unfold moderate in Hmod. rewrite !andb_true_iff in Hmod.
    destruct Hmod as [[Hfin Hlo] Hhi].
    rewrite (scipy_cosine_self cand Hlo Hhi), (scipy_euclidean_self cand Hfin).
    reflexivity. }
  assert (Hhundred : check_audio_similarity fs2 (audio_metadata st1) path2
                     = 100%float).
  { unfold check_audio_similarity, fs2. rewrite get_mfcc_saved. fold cand.
    rewrite Hst1. cbn [audio_metadata].
    rewrite (scan_skip_prefix cand _ [row1]).
    - rewrite (scan_hit_head cand row1 [] 1%float Hself eq_refl).
      reflexivity.
    - intros q Hq. apply Hall.
      exact (In_delete_where_filename _ _ q Hq). }
  assert (Hrun2 : upload_audio st1 req2
                  = (AudioTooSimilar 100%float,
                     {| uploaded_audio := remove_file fs2 path2;
                        audio_metadata := audio_metadata st1 |})).
  { unfold upload_audio. rewrite Hfile2.
    fold path2. fold fs2. rewrite Hhundred. reflexivity. }
  rewrite Hrun2. split; reflexivity.
Qed.

Lemma reupload_is_refused_sample :
  let st := {| uploaded_audio := []; audio_metadata := [Sample.far] |} in
  let again := {| file := Some ("copy.wav", Ok (Sample.track 0));
                  uuid4_hex := "51bd";
                  ipfs_run := Ok (0%Z, "QmCopy");
                  register_audio := Ok "0xcopy" |} in
  fst (upload_audio st Sample.request) = AudioStored "QmNew" "0xabc"
  /\ fst (upload_audio (snd (upload_audio st Sample.request)) again)
     = AudioTooSimilar 100%float
  /\ audio_metadata
       (snd (upload_audio (snd (upload_audio st Sample.request)) again))
     = audio_metadata (snd (upload_audio st Sample.request)).
Proof.
  intros st again.
  apply (reupload_is_refused st Sample.request again "song.wav" "copy.wav"
           (Sample.track 0) "QmNew" "0xabc").
  - reflexivity.
  - reflexivity.
  - vm_compute. reflexivity.
  - intros r [<- | []]. vm_compute. reflexivity.
  - reflexivity.
  - discriminate.
  - reflexivity.
Defined.

(** * The further properties on the sample data *)

Lemma upload_audio_writes_only_on_200_sample :
  audio_metadata (snd (upload_audio Sample.rejecting_state Sample.request))
  = audio_metadata Sample.rejecting_state.
Proof.
  apply (upload_audio_writes_only_on_200
           Sample.rejecting_state Sample.request).
  vm_compute. discriminate.
Defined.

Lemma upload_audio_folder_sample :
  read_file (uploaded_audio (snd (upload_audio Sample.rejecting_state
                                               Sample.request)))
            (file_path (unique_filename Sample.request "song.wav"))
  = match fst (upload_audio Sample.rejecting_state Sample.request) with
    | AudioTooSimilar _ => None
    | _ => Some (Ok (Sample.track 0))
    end
  /\ forall other,
       other <> file_path (unique_filename Sample.request "song.wav") ->
       read_file (uploaded_audio (snd (upload_audio Sample.rejecting_state
                                                    Sample.request))) other
       = read_file (uploaded_audio Sample.rejecting_state) other.
Proof.
  apply (upload_audio_folder Sample.rejecting_state Sample.request
           "song.wav" (Ok (Sample.track 0))).
  reflexivity.
Defined.

(** A payload that is no audio at all, against the sample corpus. *)
Lemma upload_audio_undecodable_sample :
  let req := {| file := Some ("notes.txt", Raise LoadError);
                uuid4_hex := "c0de";
                ipfs_run := Ok (0%Z, "QmText");
                register_audio := Ok "0xtext" |} in
  check_audio_similarity
    (save_file [] (file_path (unique_filename req "notes.txt"))
               (Raise LoadError))
    (audio_metadata Sample.flagged_state)
    (file_path (unique_filename req "notes.txt")) = 0%float
  /\ upload_audio Sample.flagged_state req
     = (AudioStored "QmText" "0xtext",
        {| uploaded_audio :=
             save_file [] (file_path (unique_filename req "notes.txt"))
                       (Raise LoadError);
           audio_metadata := audio_metadata Sample.flagged_state |}).
Proof.
  intros req.
  apply (upload_audio_undecodable Sample.flagged_state req "notes.txt"
           LoadError "QmText" "0xtext").
  - reflexivity.
  - reflexivity.
  - discriminate.
  - reflexivity.
Defined.

Lemma store_audio_metadata_others_sample :
  filter (fun r => String.eqb (filename r) "a1_far.wav")
         (store_audio_metadata Sample.folder [Sample.far; Sample.same]
            "c3_same.wav" Sample.path "QmNew" "0xabc")
  = filter (fun r => String.eqb (filename r) "a1_far.wav")
           [Sample.far; Sample.same]
  /\ (get_mfcc Sample.folder Sample.path = None ->
      store_audio_metadata Sample.folder [Sample.far; Sample.same]
        "c3_same.wav" Sample.path "QmNew" "0xabc"
      = [Sample.far; Sample.same]).
Proof.
  apply (store_audio_metadata_others Sample.folder
           [Sample.far; Sample.same] "c3_same.wav" Sample.path
           "QmNew" "0xabc" "a1_far.wav").
  discriminate.
Defined.

Lemma stored_fingerprints_decode_sample :
  exists m,
    json.dumps (Sample.fingerprint 0) = json.dumps (fingerprint_of m)
    /\ json.loads (json.dumps (Sample.fingerprint 0))
       = Ok (fingerprint_of m).
Proof.
  apply (stored_fingerprints_decode [] [CallUpload Sample.request]
           {| filename := unique_filename Sample.request "song.wav";
              mfcc := json.dumps (Sample.fingerprint 0);
              ipfs_hash := "QmNew"; blockchain_tx := "0xabc" |}).
  vm_compute. left. reflexivity.
Defined.

Lemma stored_rows_have_ipfs_hash_sample :
  "QmNew" <> EmptyString.
Proof.
  apply (stored_rows_have_ipfs_hash [] [CallUpload Sample.request]
           {| filename := unique_filename Sample.request "song.wav";
              mfcc := json.dumps (Sample.fingerprint 0);
              ipfs_hash := "QmNew"; blockchain_tx := "0xabc" |}).
  - repeat constructor.
  - vm_compute. left. reflexivity.
Defined.

(** * The refusal and the score behind it *)

Module Binary64Order.
Local Open Scope Z_scope.

(** A qualifying score is below 0.75 or at least 0.75. *)
Lemma threshold_dichotomy (s : float) :
  (0.5 <=? s)%float = true ->
  (s <? 0.75)%float = true \/ (0.75 <=? s)%float = true.
Proof.
  rewrite !leb_spec, ltb_spec, Binary64.Prim2SF_half,
    Binary64.Prim2SF_three_quarters.
  destruct (Prim2SF s) as [sg | sg | | sg m e]; try discriminate.
  - destruct sg; [discriminate |]. intros _. right. reflexivity.
  - destruct sg; [discriminate |].
    rewrite Binary64.SFltb_finite_pos, !Binary64.SFleb_finite_pos. lia.
Qed.

(** Above 0.5, the percentage is at least 75 exactly when the score is at
    least 0.75. *)
Lemma percent_reject_iff (s : float) :
  (0.5 <=? s)%float = true ->
  (75 <=? s * 100)%float = (0.75 <=? s)%float.
Proof.
  intros Hle.
  destruct (threshold_dichotomy s Hle) as [Hlt | Hge].
  - rewrite (Binary64.mul_100_keep s Hle Hlt).
    destruct (0.75 <=? s)%float eqn:Hge; [| reflexivity].
    exfalso. revert Hlt Hge.
    rewrite leb_spec, ltb_spec, Binary64.Prim2SF_three_quarters.
    destruct (Prim2SF s) as [sg | sg | | sg m e]; try discriminate.
    + destruct sg; discriminate.
    + destruct sg; [discriminate |].
      rewrite Binary64.SFltb_finite_pos, Binary64.SFleb_finite_pos. lia.
  - rewrite (Binary64.mul_100_reject s Hge), Hge. reflexivity.
Qed.

End Binary64Order.

Section RefusalFacts.
Context `{SpatialDistance}.

(** X13.  The two units agree.  A row whose score [s] reaches 0.50 makes
    the loop return the percentage [s * 100], and that percentage passes
    the caller's test [>= 75] exactly when [s >= 0.75]: rounding the
    product never moves a score across the rejection threshold. *)
Theorem scan_step_percentage
    (cand : vec) (r : audio_row) (s : float) :
  score_of cand r = Some s ->
  (0.50 <=? s)%float = true ->
  scan_step (json.dumps cand) (mfcc r) = Some (s * 100)%float
  /\ (50 <=? s * 100)%float = true
  /\ (75 <=? s * 100)%float = (0.75 <=? s)%float.
Proof.
  intros Hs Hle.
  split; [exact (scan_step_hit cand r s Hs Hle) |].
  split; [exact (Binary64.mul_100_threshold s Hle) |].
  exact (Binary64Order.percent_reject_iff s Hle).
Qed.

(** X12.  No refusal without a record to blame: when [upload_audio]
    answers "too similar" with a percentage, the upload decoded, and the
    table holds a row whose score against it is at least 0.75 and whose
    percentage is the one reported. *)
Theorem refusal_names_a_record
    (st : state) (req : upload) (similarity : float) :
  fst (upload_audio st req) = AudioTooSimilar similarity ->
  exists (name : string) (m : matrix) (r : audio_row) (s : float),
    file req = Some (name, Ok m)
    /\ In r (audio_metadata st)
    /\ score_of (fingerprint_of m) r = Some s
    /\ (0.75 <=? s)%float = true
    /\ similarity = (s * 100)%float.
Proof.
  unfold upload_audio.
  destruct (file req) as [[name payload] |]; [| discriminate].
  set (path := file_path (unique_filename req name)).
  set (fs := save_file (uploaded_audio st) path payload).
  destruct (75 <=? check_audio_similarity fs (audio_metadata st) path)%float
    eqn:H75.
  - cbn [fst]. intros Hresp. injection Hresp as Hsim.
    destruct payload as [m | e].
    + unfold check_audio_similarity, fs in H75, Hsim.
      rewrite get_mfcc_saved in H75, Hsim.
      destruct (scan_cases (fingerprint_of m) (audio_metadata st))
        as [[_ H0] | (pre & r & post & s & Hdb & _ & Hs & Hle & Hscan)].
      * rewrite H0 in H75. discriminate H75.
      * rewrite Hscan in H75, Hsim.
        exists name, m, r, s. split; [reflexivity |].
        split; [rewrite Hdb; apply in_elt |].
        split; [exact Hs |].
        split; [| symmetry; exact Hsim].
        rewrite <- (Binary64Order.percent_reject_iff s Hle). exact H75.
    + unfold check_audio_similarity, fs in H75.
      rewrite get_mfcc_saved_undecodable in H75. discriminate H75.
  - destruct (upload_to_ipfs (ipfs_run req)) as [[| c ipfs] |];
      try discriminate.
    destruct (register_audio req); discriminate.
Qed.

End RefusalFacts.

Lemma scan_step_percentage_sample :
  scan_step (json.dumps (Sample.fingerprint 0)) (mfcc Sample.near)
  = Some (0.62000000000000011 * 100)%float
  /\ (50 <=? 0.62000000000000011 * 100)%float = true
  /\ (75 <=? 0.62000000000000011 * 100)%float
     = (0.75 <=? 0.62000000000000011)%float.
Proof.
  apply (scan_step_percentage (Sample.fingerprint 0) Sample.near
           0.62000000000000011%float).
  - vm_compute. reflexivity.
  - vm_compute. reflexivity.
Defined.

Lemma refusal_names_a_record_sample :
  exists (name : string) (m : matrix) (r : audio_row) (s : float),
    file Sample.request = Some (name, Ok m)
    /\ In r (audio_metadata Sample.rejecting_state)
    /\ score_of (fingerprint_of m) r = Some s
    /\ (0.75 <=? s)%float = true
    /\ 100%float = (s * 100)%float.
Proof.
  apply (refusal_names_a_record Sample.rejecting_state Sample.request
           100%float).
  vm_compute. reflexivity.
Defined.

(** On the sample data: [far] alone gives 0, so the scan of [far; near]
    is the scan of [near]; [near] alone gives 62 percent, and appending
    [same] does not change it. *)
Lemma check_audio_similarity_app_sample :
  check_audio_similarity Sample.folder ([Sample.far] ++ [Sample.near])
    Sample.path
  = check_audio_similarity Sample.folder [Sample.near] Sample.path
  /\ check_audio_similarity Sample.folder ([Sample.near] ++ [Sample.same])
       Sample.path
     = check_audio_similarity Sample.folder [Sample.near] Sample.path.
Proof.
  split.
  - apply (proj2 (check_audio_similarity_app Sample.folder
                    [Sample.far] [Sample.near] Sample.path)).
    vm_compute. reflexivity.
  - apply (proj1 (check_audio_similarity_app Sample.folder
                    [Sample.near] [Sample.same] Sample.path)).
    intros Hx. apply (f_equal (fun x => (50 <=? x)%float)) in Hx.
    vm_compute in Hx. discriminate Hx.
Defined.
